(** * nbinteraction.ipynb: a shallow embedding of the notebook's code cells

    The notebook is a sequence of code cells run by one Python kernel.
    Its own code is small: the function [highlight] and its two partial
    applications, the brushing callback [index_sel_dt_callback], the
    dropdown callback [select_series], and glue that hands the dataframe
    to third-party libraries.  Cells are embedded as programs of a
    state-and-exception monad over the kernel's namespace; every call
    into a library is recorded, with its arguments, in the kernel's call
    log, and may raise; the values a cell shows as its result are
    recorded too. *)

From Stdlib Require Import Floats ZArith Ascii.
From stdpp Require Import base option list strings.

Open Scope string_scope.
Set Warnings "-register-all".

(** ** Python values the notebook handles *)

(** A Python exception: its class name and its message. *)
Record Exn := mkExn { exn_type : string; exn_msg : string }.

Definition ValueError (msg : string) : Exn := mkExn "ValueError" msg.
Definition KeyError (msg : string) : Exn := mkExn "KeyError" msg.
Definition IndexError (msg : string) : Exn := mkExn "IndexError" msg.
Definition NameError (name : string) : Exn :=
  mkExn "NameError" ("name '" ++ name ++ "' is not defined").

(** The outcome of evaluating a Python expression. *)
Inductive Result (A : Type) : Type :=
| Ok (a : A)
| Raise (e : Exn).
Arguments Ok {A} a.
Arguments Raise {A} e.

Definition rbind {A B} (r : Result A) (k : A -> Result B) : Result B :=
  match r with
  | Ok a => k a
  | Raise e => Raise e
  end.

Fixpoint rmapM {A B} (f : A -> Result B) (l : list A) : Result (list B) :=
  match l with
  | [] => Ok []
  | x :: l' => rbind (f x) (fun y => rbind (rmapM f l') (fun ys => Ok (y :: ys)))
  end.

(** A row label of the frame: a calendar date at midnight. *)
Record Timestamp := mkTimestamp { ts_year : nat; ts_month : nat; ts_day : nat }.

(** A pandas Series of float64 values: row labels, values, name. *)
Record Series := mkSeries {
  s_index : list Timestamp;
  s_values : list float;
  s_name : option string
}.

(** A pandas DataFrame of float64 values, column-major: [df_values] holds
    one list of values per entry of [columns]. *)
Record DataFrame := mkDataFrame {
  index : list Timestamp;
  columns : list string;
  df_values : list (list float)
}.

(** ** The builtins [min] and [max] on a Series

    [min(s)] iterates over the values of [s], keeps the first item and
    replaces it by each later item that compares [<] to it; [max] does
    the same with [>].  Both raise ValueError on an empty iterable. *)

Definition py_lt (x y : float) : bool := PrimFloat.ltb x y.
Definition py_gt (x y : float) : bool := PrimFloat.ltb y x.
Definition py_eq (x y : float) : bool := PrimFloat.eqb x y.

Fixpoint min_max_loop (op : float -> float -> bool) (maxval : float)
    (it : list float) : float :=
  match it with
  | [] => maxval
  | item :: it' => min_max_loop op (if op item maxval then item else maxval) it'
  end.

Definition min_max (op : float -> float -> bool) (name : string)
    (s : Series) : Result float :=
  match s_values s with
  | [] => Raise (ValueError (name ++ "() arg is an empty sequence"))
  | item :: it => Ok (min_max_loop op item it)
  end.

Definition py_min : Series -> Result float := min_max py_lt "min".
Definition py_max : Series -> Result float := min_max py_gt "max".

(** ** The styling cell *)

(** [s == v]: the element-wise comparison of a Series with a scalar. *)
Definition series_eq (s : Series) (v : float) : list bool :=
  map (fun x => py_eq x v) (s_values s).

(** [f'background-color: {color}'] *)
Definition background (color : string) : string := "background-color: " ++ color.

(** [highlight(s, func, color)]; [func] maps the Series to a scalar or
    raises. *)
Definition highlight (s : Series) (func : Series -> Result float)
    (color : string) : Result (list string) :=
  rbind (func s) (fun m =>
    let is_true := series_eq s m in
    Ok (map (fun v : bool => if v then background color else "") is_true)).

(** [functools.partial(highlight, func=min, color='red')] and
    [functools.partial(highlight, func=max, color='lime')] *)
Definition hmin (s : Series) : Result (list string) := highlight s py_min "red".
Definition hmax (s : Series) : Result (list string) := highlight s py_max "lime".

(** ** Values passed to libraries, and the calls the notebook makes

    Third-party objects (figures, scales, widgets, the TSExplorer) are
    opaque to the notebook: such an object is represented by the call
    that returned it. *)

Inductive Lib := Builtins | IPython | Matplotlib | Seaborn | Bokeh | Bqplot
               | Ipywidgets | Mywidgets.

(** Per column, per row, the CSS declarations attached to the cell. *)
Abbreviation Css := (list (list (list string))).

Inductive PyVal : Type :=
| VNone
| VBool (b : bool)
| VInt (n : Z)
| VStr (s : string)
| VFrame (df : DataFrame)
| VSeries (s : Series)
| VDatetimeIndex (l : list Timestamp)
| VColumns (l : list string)
| VStyler (df : DataFrame) (rendered : Result Css)
| VTuple (l : list PyVal)
| VList (l : list PyVal)
| VDict (l : list (string * PyVal))
| VFun (name : string)
| VItem (v : PyVal) (i : nat)
| VRet (c : Call)
with Call : Type :=
| CallFn (lib : Lib) (name : string) (args : list PyVal)
    (kwargs : list (string * PyVal))
| CallMethod (self : PyVal) (name : string) (args : list PyVal)
    (kwargs : list (string * PyVal))
| GetAttr (self : PyVal) (name : string).

(** ** The pandas operations the cells use *)

Definition nrows (df : DataFrame) : nat := length (index df).
Definition ncols (df : DataFrame) : nat := length (columns df).

(** [data.shape] *)
Definition shape (df : DataFrame) : PyVal :=
  VTuple [VInt (Z.of_nat (nrows df)); VInt (Z.of_nat (ncols df))].

(** The column at position [j], as a Series named by its label. *)
Definition column_series (df : DataFrame) (j : nat) : Series :=
  mkSeries (index df) (default [] (df_values df !! j)) (columns df !! j).

(** The columns in order, as [DataFrame.apply(axis=0)] visits them. *)
Definition iter_columns (df : DataFrame) : list Series :=
  map (column_series df) (seq 0 (ncols df)).

(** The positions at which a label occurs among the column labels. *)
Fixpoint positions_from (j : nat) (key : string) (labels : list string) : list nat :=
  match labels with
  | [] => []
  | l :: labels' =>
      if String.eqb l key then j :: positions_from (S j) key labels'
      else positions_from (S j) key labels'
  end.

Definition positions (key : string) (df : DataFrame) : list nat :=
  positions_from 0 key (columns df).

Definition take_columns (df : DataFrame) (js : list nat) : DataFrame :=
  mkDataFrame (index df)
    (map (fun j => default "" (columns df !! j)) js)
    (map (fun j => default [] (df_values df !! j)) js).

(** [df[key]]: KeyError when the label is absent, a Series when it names
    one column, a DataFrame when it names several. *)
Definition getitem (df : DataFrame) (key : string) : Result PyVal :=
  match positions key df with
  | [] => Raise (KeyError key)
  | [j] => Ok (VSeries (column_series df j))
  | js => Ok (VFrame (take_columns df js))
  end.

(** [df[[key, ...]]]: always a DataFrame; KeyError when a label is absent. *)
Definition getitem_list (df : DataFrame) (keys : list string) : Result DataFrame :=
  rbind (rmapM (fun key => match positions key df with
                           | [] => Raise (KeyError key)
                           | js => Ok js
                           end) keys)
        (fun jss => Ok (take_columns df (concat jss))).

Fixpoint dict_get (key : string) (d : list (string * string)) : option string :=
  match d with
  | [] => None
  | (k, v) :: d' => if String.eqb k key then Some v else dict_get key d'
  end.

(** [df.rename(columns=mapper)]: a new frame; labels missing from the
    mapper are kept. *)
Definition rename_columns (df : DataFrame) (mapper : list (string * string)) : DataFrame :=
  mkDataFrame (index df)
    (map (fun c => default c (dict_get c mapper)) (columns df))
    (df_values df).

(** [df.head(n)] *)
Definition df_head (n : nat) (df : DataFrame) : DataFrame :=
  mkDataFrame (take n (index df)) (columns df) (map (take n) (df_values df)).

(** [source.index] and [len(source.index)] for what [data[col]] returned. *)
Definition index_of (v : PyVal) : list Timestamp :=
  match v with
  | VSeries s => s_index s
  | VFrame df => index df
  | _ => []
  end.

(** *** Styler *)

(** Modelled from the spec: pandas' Styler is not under src/; the spec
    says of it that the notebook applies "conditional cell-background
    styling to a rendered table".  [df.style] holds the frame and a
    queue of styling functions. *)
Record Styler := mkStyler {
  st_data : DataFrame;
  st_todo : list (Series -> Result (list string))
}.

Definition style (df : DataFrame) : Styler := mkStyler df [].

(** Modelled from the spec: [Styler.apply(f)] of pandas, which queues
    [f] for the rendering. *)
Definition styler_apply (f : Series -> Result (list string)) (st : Styler) : Styler :=
  mkStyler (st_data st) (st_todo st ++ [f]).

(** The non-empty CSS strings are added to the cells. *)
Definition update_cell (cell : list string) (c : string) : list string :=
  if String.eqb c "" then cell else cell ++ [c].

Definition update_ctx (ctx : Css) (result : list (list string)) : Css :=
  zip_with (zip_with update_cell) ctx result.

(** Modelled from the spec: one queued function of pandas' Styler at
    rendering.  It is applied to every column (axis=0) and must return
    one CSS string per row; a frame with no row or no column is styled
    without calling it. *)
Definition styler_run (df : DataFrame) (ctx : Css)
    (f : Series -> Result (list string)) : Result Css :=
  if (nrows df =? 0)%nat || (ncols df =? 0)%nat then Ok ctx
  else rbind (rmapM f (iter_columns df)) (fun result =>
         if forallb (fun r => (length r =? nrows df)%nat) result
         then Ok (update_ctx ctx result)
         else Raise (ValueError "Function returned the wrong shape")).

Fixpoint styler_queue (df : DataFrame) (ctx : Css)
    (todo : list (Series -> Result (list string))) : Result Css :=
  match todo with
  | [] => Ok ctx
  | f :: todo' => rbind (styler_run df ctx f) (fun ctx' => styler_queue df ctx' todo')
  end.

(** Modelled from the spec: the rendering of pandas' Styler, which runs
    the queue in order from cells without any declaration. *)
Definition styler_compute (st : Styler) : Result Css :=
  let df := st_data st in
  styler_queue df (map (fun _ => map (fun _ => []) (index df)) (columns df))
    (st_todo st).

(** ** The kernel: namespace, library state, call log *)

(** An item of a selector's [selected] trait.  The notebook applies one
    operation to it, [str]; the item carries the text [str] gives. *)
Record Item := mkItem { item_str : string }.

Definition py_str (x : Item) : string := item_str x.

(** A bqplot IndexSelector and an ipywidgets Label, with the one trait of
    each that the notebook reads or writes. *)
Record Selector := mkSelector { selector_obj : PyVal; selected : option (list Item) }.
Record Label := mkLabel { label_obj : PyVal; value : string }.

Record Kernel := mkKernel {
  pdt_N : nat;                 (* pandas.util.testing.N *)
  pdt_K : nat;                 (* pandas.util.testing.K *)
  np_random : nat;             (* draws taken from numpy's generator *)
  py_random : nat;             (* draws taken from the random module *)
  data : option DataFrame;
  fsize : option PyVal;
  col : option string;
  source : option PyVal;
  selector : option Selector;
  label : option Label;
  tse : option PyVal;
  calls : list Call;           (* library calls made so far, oldest first *)
  displayed : list PyVal       (* values the kernel has shown as cell results *)
}.

(** A fresh kernel: pandas' defaults N = 30 and K = 4, no name bound. *)
Definition fresh_kernel : Kernel :=
  mkKernel 30 4 0 0 None None None None None None None [] [].

Definition set_pdt_N (v : nat) (k : Kernel) : Kernel :=
  mkKernel v (pdt_K k) (np_random k) (py_random k) (data k) (fsize k) (col k)
    (source k) (selector k) (label k) (tse k) (calls k) (displayed k).
Definition set_pdt_K (v : nat) (k : Kernel) : Kernel :=
  mkKernel (pdt_N k) v (np_random k) (py_random k) (data k) (fsize k) (col k)
    (source k) (selector k) (label k) (tse k) (calls k) (displayed k).
Definition set_np_random (v : nat) (k : Kernel) : Kernel :=
  mkKernel (pdt_N k) (pdt_K k) v (py_random k) (data k) (fsize k) (col k)
    (source k) (selector k) (label k) (tse k) (calls k) (displayed k).
Definition set_py_random (v : nat) (k : Kernel) : Kernel :=
  mkKernel (pdt_N k) (pdt_K k) (np_random k) v (data k) (fsize k) (col k)
    (source k) (selector k) (label k) (tse k) (calls k) (displayed k).
Definition set_data (v : DataFrame) (k : Kernel) : Kernel :=
  mkKernel (pdt_N k) (pdt_K k) (np_random k) (py_random k) (Some v) (fsize k) (col k)
    (source k) (selector k) (label k) (tse k) (calls k) (displayed k).
Definition set_fsize (v : PyVal) (k : Kernel) : Kernel :=
  mkKernel (pdt_N k) (pdt_K k) (np_random k) (py_random k) (data k) (Some v) (col k)
    (source k) (selector k) (label k) (tse k) (calls k) (displayed k).
Definition set_col (v : string) (k : Kernel) : Kernel :=
  mkKernel (pdt_N k) (pdt_K k) (np_random k) (py_random k) (data k) (fsize k) (Some v)
    (source k) (selector k) (label k) (tse k) (calls k) (displayed k).
Definition set_source (v : PyVal) (k : Kernel) : Kernel :=
  mkKernel (pdt_N k) (pdt_K k) (np_random k) (py_random k) (data k) (fsize k) (col k)
    (Some v) (selector k) (label k) (tse k) (calls k) (displayed k).
Definition set_selector (v : Selector) (k : Kernel) : Kernel :=
  mkKernel (pdt_N k) (pdt_K k) (np_random k) (py_random k) (data k) (fsize k) (col k)
    (source k) (Some v) (label k) (tse k) (calls k) (displayed k).
Definition set_label (v : Label) (k : Kernel) : Kernel :=
  mkKernel (pdt_N k) (pdt_K k) (np_random k) (py_random k) (data k) (fsize k) (col k)
    (source k) (selector k) (Some v) (tse k) (calls k) (displayed k).
Definition set_tse (v : PyVal) (k : Kernel) : Kernel :=
  mkKernel (pdt_N k) (pdt_K k) (np_random k) (py_random k) (data k) (fsize k) (col k)
    (source k) (selector k) (label k) (Some v) (calls k) (displayed k).
Definition log_call (c : Call) (k : Kernel) : Kernel :=
  mkKernel (pdt_N k) (pdt_K k) (np_random k) (py_random k) (data k) (fsize k) (col k)
    (source k) (selector k) (label k) (tse k) (calls k ++ [c]) (displayed k).

Definition log_display (v : PyVal) (k : Kernel) : Kernel :=
  mkKernel (pdt_N k) (pdt_K k) (np_random k) (py_random k) (data k) (fsize k) (col k)
    (source k) (selector k) (label k) (tse k) (calls k) (displayed k ++ [v]).

(** What the notebook does not decide: the random draws, and which
    library calls fail and how. *)
Record World := mkWorld {
  randn : nat -> float;            (* the t-th normal draw of numpy *)
  randbits : nat -> nat;           (* the t-th draw of the random module *)
  faults : Call -> option Exn      (* the exception a library call raises *)
}.

(** ** The monad of cell code: kernel state and exceptions.  The state is
    kept when a statement raises, as the kernel keeps its namespace. *)

Definition M (A : Type) : Type := Kernel -> Kernel * Result A.

#[global] Instance M_ret : MRet M := fun A a k => (k, Ok a).
#[global] Instance M_bind : MBind M := fun A B f m k =>
  match m k with
  | (k', Ok a) => f a k'
  | (k', Raise e) => (k', Raise e)
  end.

(** An expression that does not touch the kernel. *)
Definition lift {A} (r : Result A) : M A := fun k => (k, r).

(** Reading a global name: NameError when it is not bound. *)
Definition name {A} (id : string) (get : Kernel -> option A) : M A := fun k =>
  match get k with
  | Some v => (k, Ok v)
  | None => (k, Raise (NameError id))
  end.

(** Binding a global name, or setting library state. *)
Definition assign (set : Kernel -> Kernel) : M unit := fun k => (set k, Ok tt).

(** The kernel shows the value of a cell's last expression. *)
Definition display_result (v : PyVal) : M unit := assign (log_display v).

Section Session.

Variable w : World.

(** Modelled from the spec: the module mywidgets (the TSExplorer) and
    the third-party libraries are not under src/.  The spec calls what
    the notebook does with the frame "read-only projections" and "pure
    rendering calls", so a call into a library leaves every binding of
    the kernel as it is: the call is logged, then raises or returns an
    object of the library. *)
Definition call (c : Call) : M PyVal := fun k =>
  match faults w c with
  | Some e => (log_call c k, Raise e)
  | None => (log_call c k, Ok (VRet c))
  end.

(** [random.choice(seq)]: IndexError on an empty sequence, else the item
    at a drawn position below [len(seq)]. *)
Definition random_choice {A} (seq : list A) : M A := fun k =>
  match length seq with
  | 0 => (k, Raise (IndexError "Cannot choose from an empty sequence"))
  | S _ as n =>
      let i := randbits w (py_random k) mod n in
      (set_py_random (S (py_random k)) k,
       match seq !! i with
       | Some x => Ok x
       | None => Raise (IndexError "index out of range")
       end)
  end.

(** *** pandas.util.testing *)

(** Modelled from the spec: the frequency argument of pandas'
    [makeTimeDataFrame]; month start is the one the notebook asks for. *)
Variant Freq := MS.

Definition ascii_uppercase : string := "ABCDEFGHIJKLMNOPQRSTUVWXYZ".

(** Modelled from the spec: pandas' [getCols], the first [k] capital
    letters as the names of the "named numeric series". *)
Definition getCols (k : nat) : list string :=
  map (fun c => String c "") (take k (String.list_ascii_of_string ascii_uppercase)).

(** Modelled from the spec: pandas' [makeDateIndex], [k] "monthly
    timestamps" from 2000-01-01 on. *)
Definition makeDateIndex (k : nat) (freq : Freq) : list Timestamp :=
  match freq with
  | MS => map (fun i => mkTimestamp (2000 + i / 12) (1 + i mod 12) 1) (seq 0 k)
  end.

(** Modelled from the spec: pandas' [makeTimeSeries], N normal draws
    over the date index; N is the module global at the time of the
    call. *)
Definition makeTimeSeries (freq : Freq) : M Series := fun k =>
  let nper := pdt_N k in
  let values := map (fun i => randn w (np_random k + i)) (seq 0 nper) in
  (set_np_random (np_random k + nper) k,
   Ok (mkSeries (makeDateIndex nper freq) values None)).

Fixpoint getTimeSeriesData_loop (freq : Freq) (cs : list string)
    : M (list (string * Series)) :=
  match cs with
  | [] => mret []
  | c :: cs' =>
      s ← makeTimeSeries freq;
      d ← getTimeSeriesData_loop freq cs';
      mret ((c, s) :: d)
  end.

(** Modelled from the spec: pandas' [getTimeSeriesData], one Series per
    name of [getCols(K)]; K is the module global at the time of the
    call. *)
Definition getTimeSeriesData (freq : Freq) : M (list (string * Series)) := fun k =>
  getTimeSeriesData_loop freq (getCols (pdt_K k)) k.

(** [DataFrame(d)] for a dict of Series over one index. *)
Definition DataFrame_of_dict (d : list (string * Series)) : DataFrame :=
  mkDataFrame
    (match d with [] => [] | (_, s) :: _ => s_index s end)
    (map fst d)
    (map (fun cs => s_values (snd cs)) d).

(** Modelled from the spec: [makeTimeDataFrame] is pandas code, not
    under src/.  The spec gives its result as "a two-dimensional labeled
    time-indexed table of numeric values (rows = monthly timestamps,
    columns = named numeric series)"; what the spec leaves open (the
    names A, B, ..., the start on 2000-01-01, the draws) follows the
    pandas helpers above. *)
Definition makeTimeDataFrame (freq : Freq) : M DataFrame :=
  d ← getTimeSeriesData freq;
  mret (DataFrame_of_dict d).

(** *** The code cells, in the order of the notebook *)

(** Setup. *)
Definition setup_cell : M unit :=
  assign (set_pdt_N 12);;
  assign (set_pdt_K 6);;
  df ← makeTimeDataFrame MS;
  assign (set_data df);;
  d ← name "data" data;
  call (CallFn Builtins "print" [VStr "rows, cols:"; shape d] []);;
  d ← name "data" data;
  display_result (VFrame (df_head 6 d)).

(** Pandas styles: [display(data.style.apply(hmin).apply(hmax))]. *)
Definition styles_cell : M unit :=
  d ← name "data" data;
  let styler := styler_apply hmax (styler_apply hmin (style d)) in
  call (CallFn IPython "display" [VStyler d (styler_compute styler)] []);;
  mret tt.

(** matplotlib. *)
Definition matplotlib_cell : M unit :=
  assign (set_fsize (VTuple [VInt 18; VInt 5]));;
  d ← name "data" data;
  fs ← name "fsize" fsize;
  ax ← call (CallMethod (VFrame d) "plot" [] [("figsize", fs)]);
  display_result ax.

(** seaborn. *)
Definition seaborn_cell : M unit :=
  fs ← name "fsize" fsize;
  fig_ax ← call (CallFn Matplotlib "plt.subplots" [] [("figsize", fs)]);
  let ax := VItem fig_ax 1 in
  d ← name "data" data;
  r ← call (CallFn Seaborn "sns.lineplot" []
              [("data", VFrame d); ("ax", ax); ("style", VStr "event");
               ("markers", VBool true); ("dashes", VBool false);
               ("n_boot", VInt 3)]);
  display_result r.

(** bokeh. *)
Definition bokeh_cell : M unit :=
  call (CallFn Bokeh "output_notebook" [] []);;
  d ← name "data" data;
  c ← random_choice (columns d);
  assign (set_col c);;
  d ← name "data" data;
  c ← name "col" col;
  sub ← lift (getitem_list d [c]);
  c ← name "col" col;
  src ← call (CallFn Bokeh "ColumnDataSource"
                [VFrame (rename_columns sub [(c, "series")])] []);
  assign (set_source src);;
  c ← name "col" col;
  p ← call (CallFn Bokeh "figure" []
              [("x_axis_type", VStr "datetime"); ("plot_width", VInt 980);
               ("plot_height", VInt 200); ("title", VStr ("Timeseries " ++ c))]);
  hover ← call (CallFn Bokeh "HoverTool" []
                  [("tooltips", VList [VTuple [VStr "value"; VStr "@series{0.2f}"]]);
                   ("mode", VStr "vline")]);
  call (CallMethod p "add_tools" [hover] []);;
  src ← name "source" source;
  call (CallMethod p "line" [VStr "index"; VStr "series"] [("source", src)]);;
  call (CallFn Bokeh "show" [p] []);;
  mret tt.

(** [re.split(r'T', s)], for any separator character: the pieces of [s]
    between the occurrences of the separator. *)
Fixpoint re_split (sep : ascii) (s : string) : list string :=
  match s with
  | EmptyString => [""]
  | String c s' =>
      if Ascii.eqb c sep then "" :: re_split sep s'
      else match re_split sep s' with
           | piece :: pieces => String c piece :: pieces
           | [] => [String c ""]
           end
  end.

(** [seq[0]] *)
Definition item0 {A} (seq : list A) : Result A :=
  match seq with
  | x :: _ => Ok x
  | [] => Raise (IndexError "list index out of range")
  end.

(** [v[0]] for a trait that holds None or a sequence. *)
Definition subscript0 {A} (v : option (list A)) : Result A :=
  match v with
  | Some seq => item0 seq
  | None => Raise (mkExn "TypeError" "'NoneType' object is not subscriptable")
  end.

(** The truth value of [selector.selected]: false for None and for an
    empty selection. *)
Definition truthy {A} (v : option (list A)) : bool :=
  match v with
  | Some (_ :: _) => true
  | _ => false
  end.

Definition set_label_value (date : string) (k : Kernel) : Kernel :=
  match label k with
  | Some l => set_label (mkLabel (label_obj l) date) k
  | None => k
  end.

(** bqplot: the brushing callback.  [change] is not read. *)
Definition index_sel_dt_callback (change : PyVal) : M unit :=
  sel ← name "selector" selector;
  if truthy (selected sel) then
    sel ← name "selector" selector;
    x ← lift (subscript0 (selected sel));
    date ← lift (item0 (re_split "T" (py_str x)));
    _ ← name "label" label;
    assign (set_label_value date)
  else mret tt.

(** bqplot: the cell. *)
Definition bqplot_cell : M unit :=
  d ← name "data" data;
  c ← random_choice (columns d);
  assign (set_col c);;
  d ← name "data" data;
  c ← name "col" col;
  src ← lift (getitem d c);
  assign (set_source src);;
  sx ← call (CallFn Bqplot "DateScale" [] []);
  sy ← call (CallFn Bqplot "LinearScale" [] []);
  sc ← call (CallFn Bqplot "ColorScale" [] [("scheme", VStr "oranges")]);
  let scales := VDict [("x", sx); ("y", sy); ("color", sc)] in
  src ← name "source" source;
  ax_x ← call (CallFn Bqplot "Axis" []
                 [("scale", sx); ("label", VStr "Date");
                  ("num_ticks", VInt (Z.of_nat (length (index_of src) / 2)))]);
  ax_y ← call (CallFn Bqplot "Axis" []
                 [("scale", sy); ("label", VStr "Value");
                  ("orientation", VStr "vertical")]);
  let axes := VList [ax_x; ax_y] in
  src ← name "source" source;
  line ← call (CallFn Bqplot "Lines" []
                 [("x", VDatetimeIndex (index_of src)); ("y", src);
                  ("scales", scales)]);
  sel ← call (CallFn Bqplot "IndexSelector" []
                [("scale", sx); ("show_names", VBool false);
                 ("continuous_update", VBool false)]);
  assign (set_selector (mkSelector sel None));;
  sel ← name "selector" selector;
  call (CallMethod (selector_obj sel) "observe"
          [VFun "index_sel_dt_callback"; VList [VStr "selected"]] []);;
  sel ← name "selector" selector;
  c ← name "col" col;
  layout ← call (CallFn Ipywidgets "widgets.Layout" []
                   [("min_width", VStr "980px"); ("max_height", VStr "250px")]);
  fig ← call (CallFn Bqplot "Figure" []
                [("marks", VList [line]); ("axes", axes);
                 ("interaction", selector_obj sel);
                 ("title", VStr ("Timeseries " ++ c));
                 ("animation_duration", VInt 1000); ("layout", layout)]);
  lbl ← call (CallFn Ipywidgets "widgets.Label" [] []);
  assign (set_label (mkLabel lbl ""));;
  lbl ← name "label" label;
  box ← call (CallFn Ipywidgets "widgets.VBox" []
                [("children", VList [fig; label_obj lbl])]);
  display_result box.

(** Widgets: the dropdown callback, defined alike by both cells. *)
Definition select_series (col : string) : M unit :=
  d ← name "data" data;
  series ← lift (getitem d col);
  fs ← name "fsize" fsize;
  call (CallMethod series "plot" [] [("figsize", fs)]);;
  mret tt.

(** [@widgets.interact(col=data.columns)] *)
Definition interact_cell : M unit :=
  d ← name "data" data;
  deco ← call (CallFn Ipywidgets "widgets.interact" []
                 [("col", VColumns (columns d))]);
  call (CallMethod deco "__call__" [VFun "select_series"] []);;
  mret tt.

(** [@widgets.interact(col=widgets.Dropdown(options=data.columns,
    description='Feature:'))] *)
Definition dropdown_cell : M unit :=
  d ← name "data" data;
  dd ← call (CallFn Ipywidgets "widgets.Dropdown" []
               [("options", VColumns (columns d)); ("description", VStr "Feature:")]);
  deco ← call (CallFn Ipywidgets "widgets.interact" [] [("col", dd)]);
  call (CallMethod deco "__call__" [VFun "select_series"] []);;
  mret tt.

(** Patterns: the TSExplorer of the module mywidgets. *)
Definition tse_cell : M unit :=
  d ← name "data" data;
  layout ← call (CallFn Ipywidgets "widgets.Layout" []
                   [("width", VStr "980px"); ("height", VStr "490px")]);
  t ← call (CallFn Mywidgets "mywidgets.TSExplorer" [VFrame d] [("layout", layout)]);
  assign (set_tse t);;
  t ← name "tse" tse;
  display_result t.

Definition tse_selected_data_cell : M unit :=
  t ← name "tse" tse;
  sd ← call (GetAttr t "selected_data");
  display_result sd.

Definition tse_show_cell : M unit :=
  t ← name "tse" tse;
  display_result t.

Definition tse_reset_cell : M unit :=
  t ← name "tse" tse;
  call (CallMethod t "reset" []
          [("selected_feature", VBool true); ("selected_dates", VBool true)]);;
  t ← name "tse" tse;
  sd ← call (GetAttr t "selected_data");
  display_result sd.

(** The code cells by position; the three cells that hold only a
    commented-out install command do nothing. *)
Inductive Cell :=
| Setup | Styles | MatplotlibCell | SeabornInstall | SeabornCell
| BokehInstall | BokehCell | BqplotInstall | BqplotCell
| InteractCell | DropdownCell
| TseCell | TseSelectedData | TseShow | TseReset.

Definition notebook : list Cell :=
  [Setup; Styles; MatplotlibCell; SeabornInstall; SeabornCell;
   BokehInstall; BokehCell; BqplotInstall; BqplotCell;
   InteractCell; DropdownCell;
   TseCell; TseSelectedData; TseShow; TseReset].

Definition run_cell (c : Cell) : M unit :=
  match c with
  | Setup => setup_cell
  | Styles => styles_cell
  | MatplotlibCell => matplotlib_cell
  | SeabornCell => seaborn_cell
  | BokehCell => bokeh_cell
  | BqplotCell => bqplot_cell
  | InteractCell => interact_cell
  | DropdownCell => dropdown_cell
  | TseCell => tse_cell
  | TseSelectedData => tse_selected_data_cell
  | TseShow => tse_show_cell
  | TseReset => tse_reset_cell
  | SeabornInstall | BokehInstall | BqplotInstall => mret tt
  end.

(** What happens in a session: the user runs a cell, brushes the bqplot
    figure (the front end sets [selector.selected] and the observer is
    called), or picks a column in a dropdown (the widget calls
    [select_series]). *)
Inductive Step :=
| Run (c : Cell)
| Brush (sel : option (list Item)) (change : PyVal)
| Pick (col : string).

Definition set_selected (sel : option (list Item)) (k : Kernel) : Kernel :=
  match selector k with
  | Some s => set_selector (mkSelector (selector_obj s) sel) k
  | None => k
  end.

Definition exec (s : Step) : M unit :=
  match s with
  | Run c => run_cell c
  | Brush sel change => assign (set_selected sel);; index_sel_dt_callback change
  | Pick col => select_series col
  end.

(** A session: the steps one after the other.  A step that raises ends
    there; the kernel keeps its state and takes the next step. *)
Fixpoint session (steps : list Step) (k : Kernel) : Kernel :=
  match steps with
  | [] => k
  | s :: steps' => session steps' (fst (exec s k))
  end.

(** Run All: the cells in order, stopping at the first that raises. *)
Fixpoint run_all (cells : list Cell) : M unit :=
  match cells with
  | [] => mret tt
  | c :: cells' => run_cell c;; run_all cells'
  end.

End Session.

(** * Notions used in the statements *)

(** Every column of the frame holds one value per row. *)
Definition well_formed (df : DataFrame) : bool :=
  (length (df_values df) =? ncols df)%nat
  && forallb (fun c => (length c =? nrows df)%nat) (df_values df).

(** The declarations the styled table attaches to a cell holding [v], in
    a column whose [min] is [lo] and whose [max] is [hi]. *)
Definition marks (v lo hi : float) : list string :=
  (if py_eq v lo then [background "red"] else [])
  ++ (if py_eq v hi then [background "lime"] else []).

(** The value [min] or [max] settles on, when there is one. *)
Definition extremum (op : float → float → bool) (s : Series) : float :=
  match s_values s with
  | x :: l => min_max_loop op x l
  | [] => 0%float
  end.


(** The frames and Series a value carries, and those a library call
    receives: as receiver, as argument, or inside an object it is given
    (a data source built from a frame, a mark built from a Series). *)
Fixpoint datasets (v : PyVal) : list PyVal :=
  match v with
  | VFrame _ | VSeries _ => [v]
  | VStyler df _ => [VFrame df]
  | VTuple l | VList l => flat_map datasets l
  | VDict l => flat_map (fun p => datasets (snd p)) l
  | VItem v' _ => datasets v'
  | VRet c => datasets_call c
  | _ => []
  end
with datasets_call (c : Call) : list PyVal :=
  match c with
  | CallFn _ _ args kwargs =>
      flat_map datasets args ++ flat_map (fun p => datasets (snd p)) kwargs
  | CallMethod self _ args kwargs =>
      datasets self ++ flat_map datasets args
      ++ flat_map (fun p => datasets (snd p)) kwargs
  | GetAttr self _ => datasets self
  end.

(** What the calls logged between the kernels [k] and [k'] received. *)
Definition passed (k k' : Kernel) : list PyVal :=
  flat_map datasets_call (drop (length (calls k)) (calls k')).

(** The library a function call goes to. *)
Definition lib_of (c : Call) : option Lib :=
  match c with
  | CallFn lib _ _ _ => Some lib
  | _ => None
  end.

(** A relation [R] between the kernel before and after is respected by
    a program when every run relates the kernel it starts from to the
    kernel it leaves, whether it returns or raises. *)
Definition respects (R : Kernel → Kernel → Prop) {A} (m : M A) : Prop :=
  ∀ k, R k (fst (m k)).

(** The frame bound to [data] is the same in both kernels. *)
Definition same_data (k k' : Kernel) : Prop := data k' = data k.

(** [keeps k k']: the call log and the displayed values of [k] are a
    prefix of those of [k'], and every name bound in [k] is bound in
    [k']. *)
Definition keeps (k k' : Kernel) : Prop :=
  calls k `prefix_of` calls k' ∧
  displayed k `prefix_of` displayed k' ∧
  (is_Some (data k) → is_Some (data k')) ∧
  (is_Some (fsize k) → is_Some (fsize k')) ∧
  (is_Some (col k) → is_Some (col k')) ∧
  (is_Some (source k) → is_Some (source k')) ∧
  (is_Some (selector k) → is_Some (selector k')) ∧
  (is_Some (label k) → is_Some (label k')) ∧
  (is_Some (tse k) → is_Some (tse k')).

(** [wp m Q E k]: run from the kernel [k], the program [m] either
    returns [a] in a kernel [k'] with [Q a k'], or raises [e] in a
    kernel [k'] with [E e k']. *)
Definition wp {A} (m : M A) (Q : A → Kernel → Prop) (E : Exn → Kernel → Prop)
    (k : Kernel) : Prop :=
  match m k with
  | (k', Ok a) => Q a k'
  | (k', Raise e) => E e k'
  end.




(** An object of the module mywidgets: what a call into it returned. *)
Definition is_tsexplorer (v : PyVal) : bool :=
  match v with
  | VRet (CallFn Mywidgets _ _ _) => true
  | _ => false
  end.

(** A call into the module mywidgets or on one of its objects. *)
Definition on_tsexplorer (c : Call) : bool :=
  match c with
  | CallFn Mywidgets _ _ _ => true
  | CallFn _ _ _ _ => false
  | CallMethod self _ _ _ | GetAttr self _ => is_tsexplorer self
  end.

(** The three uses: the constructor with the frame and a layout, the
    read of [selected_data], and [reset] with its two keywords. *)
Definition tse_use_ok (c : Call) : Prop :=
  match c with
  | CallFn Mywidgets name args kwargs =>
      name = "mywidgets.TSExplorer" ∧
      ∃ d layout, args = [VFrame d] ∧ kwargs = [("layout", layout)]
  | CallFn _ _ _ _ => True
  | CallMethod self name args kwargs =>
      is_tsexplorer self = true →
      name = "reset" ∧ args = [] ∧
      kwargs = [("selected_feature", VBool true); ("selected_dates", VBool true)]
  | GetAttr self name =>
      is_tsexplorer self = true → name = "selected_data"
  end.

(** Every logged call is one of the three uses, and the selector is no
    object of mywidgets. *)
Definition tse_inv (k : Kernel) : Prop :=
  Forall tse_use_ok (calls k) ∧
  ∀ sel, selector k = Some sel → is_tsexplorer (selector_obj sel) = false.

(** The order of two finite floats of one sign: exponents, then mantissas. *)
Definition cmp_em (e1 : Z) (m1 : positive) (e2 : Z) (m2 : positive) : comparison :=
  match (e1 ?= e2)%Z with
  | Lt => Lt
  | Gt => Gt
  | Eq => Pos.compare_cont Eq m1 m2
  end.



(** * Worlds, kernels and values used in examples *)

(** A world in which no library call fails. *)
Definition demo_world : World :=
  mkWorld (fun t => PrimFloat.of_uint63 (Uint63.of_Z (Z.of_nat ((t * 7 + 3) mod 11))))
          (fun t => t * 5 + 2)
          (fun _ => None).

Definition demo_series : Series :=
  mkSeries [mkTimestamp 2000 1 1; mkTimestamp 2000 2 1; mkTimestamp 2000 3 1]
           [2.5%float; (-1)%float; 2.5%float] (Some "A").


(** The kernel after Run All in that world, and the frame it holds. *)
Definition demo_kernel : Kernel := fst (run_all demo_world notebook fresh_kernel).

Definition demo_frame : DataFrame := default (mkDataFrame [] [] []) (data demo_kernel).

(** The kernel of that world before and after its bokeh cell. *)
Definition demo_kernel_seaborn : Kernel :=
  fst (run_all demo_world
         [Setup; Styles; MatplotlibCell; SeabornInstall; SeabornCell; BokehInstall]
         fresh_kernel).

Definition demo_kernel_bokeh : Kernel := fst (bokeh_cell demo_world demo_kernel_seaborn).

(** The TSExplorer of that world. *)
Definition demo_tsexplorer : Call :=
  CallFn Mywidgets "mywidgets.TSExplorer" [VFrame demo_frame]
    [("layout", VRet (CallFn Ipywidgets "widgets.Layout" []
                        [("width", VStr "980px"); ("height", VStr "490px")]))].

(** A session after the setup cell: every other cell, then a brush and
    a pick in a dropdown. *)
Definition demo_later_steps : list Step :=
  map Run (tail notebook)
  ++ [Brush (Some [mkItem "2000-03-01T00:00:00.000000000"]) VNone; Pick "C"].





(** A Series that starts with NaN, and one that is constant apart from
    a NaN. *)
Definition nan_series : Series :=
  mkSeries [mkTimestamp 2000 1 1; mkTimestamp 2000 2 1; mkTimestamp 2000 3 1]
           [PrimFloat.nan; 1%float; 2%float] (Some "A").

Definition flat_series : Series :=
  mkSeries [mkTimestamp 2000 1 1; mkTimestamp 2000 2 1; mkTimestamp 2000 3 1]
           [2%float; PrimFloat.nan; 2%float] (Some "A").

(** * Properties *)

(** ** [min], [max] and [highlight] *)

Lemma min_max_loop_elem op x l : min_max_loop op x l ∈ x :: l.
Proof.
  revert x. induction l as [|y l IH]; intros x; simpl.
  - apply list_elem_of_here.
  - specialize (IH (if op y x then y else x)).
    apply elem_of_cons in IH as [->|IH].
    + destruct (op y x); [apply list_elem_of_further|]; apply list_elem_of_here.
    + do 2 apply list_elem_of_further. exact IH.
Qed.

Lemma min_max_nonempty op name s :
  s_values s ≠ [] → ∃ m, min_max op name s = Ok m ∧ m ∈ s_values s.
Proof.
  unfold min_max. destruct (s_values s) as [|x l]; [done|]. intros _.
  eexists. split; [reflexivity|]. apply min_max_loop_elem.
Qed.

Lemma min_max_empty op name s :
  s_values s = [] →
  min_max op name s = Raise (ValueError (name ++ "() arg is an empty sequence")).
Proof. unfold min_max. by intros ->. Qed.

Lemma py_eq_refl v : PrimFloat.is_nan v = false → py_eq v v = true.
Proof. unfold PrimFloat.is_nan, py_eq. apply negb_false_iff. Qed.

Lemma background_nonempty color : background color ≠ "".
Proof. discriminate. Qed.

Lemma highlight_ok s func color m :
  func s = Ok m →
  highlight s func color
  = Ok (map (fun v => if py_eq v m then background color else "") (s_values s)).
Proof.
  intros Hm. unfold highlight, series_eq. rewrite Hm. simpl.
  by rewrite map_map.
Qed.

Lemma highlight_raise s func color e :
  func s = Raise e → highlight s func color = Raise e.
Proof. intros Hm. unfold highlight. by rewrite Hm. Qed.

Lemma map_fmap {A B} (f : A → B) (l : list A) : map f l = f <$> l.
Proof. induction l; simpl; by f_equal. Qed.

(** ** The styled table *)

Lemma rmapM_ok {A B} (f : A → Result B) (g : A → B) (l : list A) :
  (∀ x, x ∈ l → f x = Ok (g x)) → rmapM f l = Ok (map g l).
Proof.
  induction l as [|x l IH]; intros H; simpl; [done|].
  rewrite (H x) by apply list_elem_of_here. simpl.
  rewrite IH; [done|]. intros y Hy. apply H. by apply list_elem_of_further.
Qed.

Lemma well_formed_inv df :
  well_formed df = true →
  length (df_values df) = ncols df ∧
  ∀ j c, df_values df !! j = Some c → length c = nrows df.
Proof.
  unfold well_formed. intros [H1 H2]%andb_true_iff.
  apply Nat.eqb_eq in H1. split; [done|]. intros j c Hc.
  rewrite forallb_forall in H2. apply Nat.eqb_eq, H2.
  apply list_elem_of_In, list_elem_of_lookup. eauto.
Qed.

Lemma min_max_extremum op name s :
  s_values s ≠ [] → min_max op name s = Ok (extremum op s).
Proof. unfold min_max, extremum. by destruct (s_values s). Qed.

Lemma styler_run_highlight df ctx op name color :
  well_formed df = true →
  ((nrows df =? 0)%nat || (ncols df =? 0)%nat) = false →
  styler_run df ctx (fun s => highlight s (min_max op name) color)
  = Ok (update_ctx ctx
          (map (fun s => map (fun v => if py_eq v (extremum op s)
                                       then background color else "")
                             (s_values s))
               (iter_columns df))).
Proof.
  intros [Hlen Hcol]%well_formed_inv Hne. unfold styler_run. rewrite Hne.
  apply orb_false_iff in Hne as [Hr Hc]. apply Nat.eqb_neq in Hr, Hc.
  assert (Hvals : ∀ s, s ∈ iter_columns df → length (s_values s) = nrows df).
  { intros s Hs. unfold iter_columns in Hs. rewrite map_fmap in Hs.
    apply list_elem_of_fmap in Hs as (j & -> & Hj).
    apply elem_of_seq in Hj as [_ Hj]. simpl in Hj. rewrite <- Hlen in Hj.
    apply lookup_lt_is_Some in Hj as [c Hc']. simpl. rewrite Hc'. simpl. eauto. }
  erewrite rmapM_ok; last first.
  { intros s Hs. apply highlight_ok, min_max_extremum.
    specialize (Hvals s Hs). destruct (s_values s); simpl in *; [lia|done]. }
  simpl.
  assert (Hall : forallb (fun r : list string => (length r =? nrows df)%nat)
            (map (fun s => map (fun v => if py_eq v (extremum op s)
                                         then background color else "")
                               (s_values s)) (iter_columns df)) = true).
  { apply forallb_forall. intros r Hr'. apply in_map_iff in Hr' as (s & <- & Hs).
    rewrite length_map. apply Nat.eqb_eq, Hvals. by apply list_elem_of_In. }
  by rewrite Hall.
Qed.

Lemma update_cell_marks v lo hi :
  update_cell
    (update_cell [] (if py_eq v lo then background "red" else ""))
    (if py_eq v hi then background "lime" else "")
  = marks v lo hi.
Proof. unfold marks. by destruct (py_eq v lo), (py_eq v hi). Qed.

Lemma styled_table df :
  well_formed df = true →
  ∃ css,
    styler_compute (styler_apply hmax (styler_apply hmin (style df))) = Ok css ∧
    ∀ j i c v, df_values df !! j = Some c → c !! i = Some v →
      ∃ lo hi,
        py_min (column_series df j) = Ok lo ∧
        py_max (column_series df j) = Ok hi ∧
        css !! j ≫= (.!! i) = Some (marks v lo hi).
Proof.
  intros Hwf. pose proof (well_formed_inv df Hwf) as [Hlen Hcol].
  unfold styler_compute, styler_apply, style, hmin, hmax, py_min, py_max. simpl.
  destruct ((nrows df =? 0)%nat || (ncols df =? 0)%nat) eqn:Hne.
  - unfold styler_run. rewrite Hne. simpl. eexists. split; [reflexivity|].
    intros j i c v Hc Hv. exfalso.
    apply orb_true_iff in Hne as [Hz|Hz]; apply Nat.eqb_eq in Hz.
    + apply Hcol in Hc. apply lookup_lt_Some in Hv. lia.
    + apply lookup_lt_Some in Hc. lia.
  - rewrite styler_run_highlight by done. simpl.
    rewrite styler_run_highlight by done. simpl. eexists. split; [reflexivity|].
    intros j i c v Hc Hv.
    assert (Hj : j < ncols df) by (rewrite <- Hlen; by eapply lookup_lt_Some).
    assert (Hvals : s_values (column_series df j) = c) by (simpl; by rewrite Hc).
    assert (Hne' : s_values (column_series df j) ≠ []).
    { rewrite Hvals. by destruct c. }
    exists (extremum py_lt (column_series df j)), (extremum py_gt (column_series df j)).
    split; [by apply min_max_extremum|]. split; [by apply min_max_extremum|].
    unfold update_ctx, iter_columns. rewrite !map_fmap.
    rewrite !lookup_zip_with, !list_lookup_fmap.
    rewrite lookup_seq_lt by done.
    destruct (lookup_lt_is_Some_2 (columns df) j Hj) as [lbl ->]. simpl.
    rewrite !map_fmap, Hc. simpl.
    rewrite !lookup_zip_with, !list_lookup_fmap, Hv.
    assert (Hi : i < nrows df) by (rewrite <- (Hcol j c Hc); by eapply lookup_lt_Some).
    destruct (lookup_lt_is_Some_2 (index df) i Hi) as [t ->]. simpl.
    f_equal. unfold extremum. simpl. rewrite Hc. simpl. apply update_cell_marks.
Qed.




(** C9.  On a non-empty Series without NaN, [min] and [max] return a
    value of the Series, and [hmin] (resp. [hmax]) returns a list that
    holds the red (resp. lime) declaration at a position where that
    value is attained; on an empty Series both raise ValueError. *)
Theorem hmin_hmax_color_a_cell (s : Series) :
  s_values s ≠ [] →
  (∀ v, v ∈ s_values s → PrimFloat.is_nan v = false) →
  (∃ lo l i v, py_min s = Ok lo ∧ hmin s = Ok l ∧
               s_values s !! i = Some v ∧ py_eq v lo = true ∧
               l !! i = Some (background "red") ∧ background "red" ≠ "") ∧
  (∃ hi l i v, py_max s = Ok hi ∧ hmax s = Ok l ∧
               s_values s !! i = Some v ∧ py_eq v hi = true ∧
               l !! i = Some (background "lime") ∧ background "lime" ≠ "") ∧
  (∀ s0, s_values s0 = [] →
         hmin s0 = Raise (ValueError "min() arg is an empty sequence") ∧
         hmax s0 = Raise (ValueError "max() arg is an empty sequence")).
Proof.
  intros Hne Hnan.
  assert (Hgen : ∀ op name color,
    ∃ m l i v, min_max op name s = Ok m ∧ highlight s (min_max op name) color = Ok l ∧
               s_values s !! i = Some v ∧ py_eq v m = true ∧
               l !! i = Some (background color) ∧ background color ≠ "").
  { intros op name color.
    destruct (min_max_nonempty op name s Hne) as (m & Hm & Hin).
    apply list_elem_of_lookup in Hin as [i Hi].
    assert (Hrefl : py_eq m m = true).
    { apply py_eq_refl, Hnan, list_elem_of_lookup. eauto. }
    exists m, (map (fun v => if py_eq v m then background color else "") (s_values s)), i, m.
    split; [done|]. split; [by apply highlight_ok|]. split; [done|].
    split; [done|]. split; [|apply background_nonempty].
    by rewrite map_fmap, list_lookup_fmap, Hi; simpl; rewrite Hrefl. }
  split; [apply Hgen|]. split; [apply Hgen|].
  intros s0 H0. split; apply highlight_raise, min_max_empty, H0.
Qed.

Lemma hmin_hmax_color_a_cell_witness :
  (∃ lo l i v, py_min demo_series = Ok lo ∧ hmin demo_series = Ok l ∧
               s_values demo_series !! i = Some v ∧ py_eq v lo = true ∧
               l !! i = Some (background "red") ∧ background "red" ≠ "") ∧
  (∃ hi l i v, py_max demo_series = Ok hi ∧ hmax demo_series = Ok l ∧
               s_values demo_series !! i = Some v ∧ py_eq v hi = true ∧
               l !! i = Some (background "lime") ∧ background "lime" ≠ "") ∧
  (∀ s0, s_values s0 = [] →
         hmin s0 = Raise (ValueError "min() arg is an empty sequence") ∧
         hmax s0 = Raise (ValueError "max() arg is an empty sequence")).
Proof.
  apply (hmin_hmax_color_a_cell demo_series).
  - discriminate.
  - intros v Hv. simpl in Hv.
    repeat (apply elem_of_cons in Hv as [->|Hv]; [reflexivity|]).
    by apply elem_of_nil in Hv.
Defined.

(** ** The brushing callback *)





(** ** Reasoning about cell code

    A relation [R] between the kernel before and after, reflexive and
    transitive, is respected by a program when every run relates the
    kernel it starts from to the kernel it leaves, whether it returns
    or raises. *)

Section Respects.

Context (R : Kernel → Kernel → Prop) `{!Reflexive R} `{!Transitive R}.

Lemma respects_ret {A} (a : A) : respects R (mret a).
Proof. intros k. simpl. reflexivity. Qed.

Lemma respects_lift {A} (r : Result A) : respects R (lift r).
Proof. intros k. simpl. reflexivity. Qed.

Lemma respects_name {A} id (get : Kernel → option A) : respects R (name id get).
Proof. intros k. unfold name. destruct (get k); simpl; reflexivity. Qed.

Lemma respects_bind {A B} (m : M A) (f : A → M B) :
  respects R m → (∀ a, respects R (f a)) → respects R (m ≫= f).
Proof.
  intros Hm Hf k. unfold mbind, M_bind. specialize (Hm k).
  destruct (m k) as [k' [a|e]]; simpl in *; [|done].
  etransitivity; [exact Hm|apply Hf].
Qed.

Lemma respects_assign (set : Kernel → Kernel) :
  (∀ k, R k (set k)) → respects R (assign set).
Proof. intros H k. apply H. Qed.

Lemma respects_call w c : (∀ k, R k (log_call c k)) → respects R (call w c).
Proof. intros H k. unfold call. destruct (faults w c); apply H. Qed.

Lemma respects_random_choice {A} w (seq : list A) :
  (∀ n k, R k (set_py_random n k)) → respects R (random_choice w seq).
Proof.
  intros H k. unfold random_choice. destruct (length seq); simpl; [reflexivity|apply H].
Qed.

Lemma respects_if {A} (b : bool) (m1 m2 : M A) :
  respects R m1 → respects R m2 → respects R (if b then m1 else m2).
Proof. by destruct b. Qed.

End Respects.

(** The steps that need no more than: logging a call, drawing from the
    random module, and binding a name other than [data]. *)
Ltac respects_step :=
  lazymatch goal with
  | |- respects _ (mret _) => apply respects_ret; apply _
  | |- respects _ (lift _) => apply respects_lift; apply _
  | |- respects _ (name _ _) => apply respects_name; apply _
  | |- respects _ (if _ then _ else _) => apply respects_if
  | |- respects _ (_ ≫= _) => apply respects_bind; [apply _| |intros ?]
  | |- respects _ (call _ _) => apply respects_call; intros ?
  | |- respects _ (random_choice _ _) =>
      apply respects_random_choice; [apply _|intros ? ?]
  | |- respects _ (assign _) => apply respects_assign; intros ?
  end.

(** *** The dataframe is not touched after the setup cell *)

#[global] Instance same_data_refl : Reflexive same_data.
Proof. by intros k. Qed.

#[global] Instance same_data_trans : Transitive same_data.
Proof. intros k1 k2 k3 H1 H2. unfold same_data in *. congruence. Qed.

Lemma exec_same_data w s : s ≠ Run Setup → respects same_data (exec w s).
Proof.
  intros Hs. destruct s as [c|sel change|c]; [destruct c|..]; try done;
    unfold exec, run_cell, styles_cell, matplotlib_cell, seaborn_cell, bokeh_cell,
      bqplot_cell, interact_cell, dropdown_cell, tse_cell, tse_selected_data_cell,
      tse_show_cell, tse_reset_cell, index_sel_dt_callback, select_series,
      display_result;
    repeat respects_step;
    try (unfold same_data, set_selected, set_label_value;
         repeat case_match; reflexivity).
Qed.

Lemma session_same_data w steps k :
  Forall (fun s => s ≠ Run Setup) steps → data (session w steps k) = data k.
Proof.
  intros H. revert k. induction H as [|s steps Hs _ IH]; intros k; simpl; [done|].
  rewrite IH. by apply exec_same_data.
Qed.

(** ** The setup cell *)

Arguments makeTimeDataFrame : simpl never.
Arguments makeDateIndex : simpl never.
Arguments getCols : simpl never.
Arguments styler_compute : simpl never.
Arguments getitem : simpl never.
Arguments getitem_list : simpl never.
Arguments rename_columns : simpl never.
Arguments take_columns : simpl never.
Arguments column_series : simpl never.
Arguments df_head : simpl never.
Arguments shape : simpl never.
Arguments random_choice : simpl never.

Ltac run_monad :=
  unfold mbind, M_bind, mret, M_ret, name, assign, lift, call, display_result; cbn.

Ltac case_fault :=
  match goal with
  | |- context [faults ?w ?c] => destruct (faults w c) eqn:?; simpl
  end.

Ltac in_log :=
  solve [ repeat first
            [ apply list_elem_of_here
            | apply elem_of_app; right; apply list_elem_of_here
            | apply elem_of_app; left ] ].

Lemma makeTimeDataFrame_12_6 w k :
  pdt_N k = 12 → pdt_K k = 6 →
  ∃ vals t,
    makeTimeDataFrame w MS k
    = (set_np_random t k, Ok (mkDataFrame (makeDateIndex 12 MS) (getCols 6) vals)) ∧
    length vals = 6 ∧ Forall (fun c : list float => length c = 12) vals.
Proof.
  destruct k. simpl. intros -> ->. eexists _, _. split; [|split].
  - unfold makeTimeDataFrame, getTimeSeriesData, mbind, M_bind, mret, M_ret.
    cbn -[makeDateIndex]. reflexivity.
  - reflexivity.
  - repeat constructor.
Qed.

Lemma setup_cell_run w k :
  ∃ d t,
    index d = makeDateIndex 12 MS ∧ columns d = getCols 6 ∧
    length (df_values d) = 6 ∧
    Forall (fun c : list float => length c = 12) (df_values d) ∧
    let k1 := set_data d (set_np_random t (set_pdt_K 6 (set_pdt_N 12 k))) in
    let print_call := CallFn Builtins "print" [VStr "rows, cols:"; shape d] [] in
    setup_cell w k
    = match faults w print_call with
      | Some e => (log_call print_call k1, Raise e)
      | None => (log_display (VFrame (df_head 6 d)) (log_call print_call k1), Ok tt)
      end.
Proof.
  destruct (makeTimeDataFrame_12_6 w (set_pdt_K 6 (set_pdt_N 12 k)) eq_refl eq_refl)
    as (vals & t & Hrun & Hlen & Hcols).
  exists (mkDataFrame (makeDateIndex 12 MS) (getCols 6) vals), t.
  repeat (split; [done|]). intros k1 print_call.
  unfold setup_cell. run_monad.
  change (mkKernel 12 6 (np_random k) (py_random k) (data k) (fsize k) (col k)
            (source k) (selector k) (label k) (tse k) (calls k) (displayed k))
    with (set_pdt_K 6 (set_pdt_N 12 k)).
  rewrite Hrun. simpl.
  fold print_call. by destruct (faults w print_call).
Qed.

Lemma setup_cell_data w k :
  ∃ vals,
    data (fst (setup_cell w k))
    = Some (mkDataFrame (makeDateIndex 12 MS) (getCols 6) vals) ∧
    length vals = 6 ∧ Forall (fun c : list float => length c = 12) vals.
Proof.
  destruct (setup_cell_run w k) as ([idx cols vals] & t & Hi & Hc & Hlen & Hcols & Hrun).
  simpl in *. subst idx cols. exists vals. split; [|done].
  rewrite Hrun. by destruct (faults w _).
Qed.

(** C4.  The setup cell sets N = 12 and K = 6 and binds [data] to a
    table of floats with the 12 month starts of the year 2000 as row
    labels and the 6 columns A to F, each holding 12 values; the shape
    it prints is (12, 6). *)
Theorem setup_generates_monthly_table (w : World) (k : Kernel) :
  let k' := fst (setup_cell w k) in
  pdt_N k' = 12 ∧ pdt_K k' = 6 ∧
  ∃ d, data k' = Some d ∧
       index d = map (fun m => mkTimestamp 2000 m 1) [1; 2; 3; 4; 5; 6; 7; 8; 9; 10; 11; 12] ∧
       columns d = ["A"; "B"; "C"; "D"; "E"; "F"] ∧
       nrows d = 12 ∧ ncols d = 6 ∧
       length (df_values d) = 6 ∧
       (∀ j c, df_values d !! j = Some c → length c = 12) ∧
       well_formed d = true ∧
       calls k' !! length (calls k)
       = Some (CallFn Builtins "print" [VStr "rows, cols:"; VTuple [VInt 12; VInt 6]] []).
Proof.
  intros k'.
  destruct (setup_cell_run w k) as ([idx cols vals] & t & Hi & Hc & Hlen & Hcols & Hrun).
  simpl in Hi, Hc, Hlen, Hcols. subst idx cols k'. rewrite Hrun. clear Hrun.
  assert (Hshape : shape (mkDataFrame (makeDateIndex 12 MS) (getCols 6) vals)
                   = VTuple [VInt 12; VInt 6]) by reflexivity.
  rewrite Hshape.
  assert (Hwf : well_formed (mkDataFrame (makeDateIndex 12 MS) (getCols 6) vals) = true).
  { unfold well_formed. simpl. rewrite Hlen. simpl.
    apply forallb_forall. intros c Hin. apply Nat.eqb_eq.
    rewrite Forall_forall in Hcols. by apply Hcols, list_elem_of_In. }
  assert (Hcol : ∀ j c, vals !! j = Some c → length c = 12).
  { intros j c Hj. rewrite Forall_forall in Hcols.
    apply Hcols, list_elem_of_lookup. eauto. }
  destruct (faults w _); simpl;
    (split; [done|]; split; [done|]; eexists; split; [reflexivity|];
     simpl; repeat (split; [done|]);
     rewrite <- ?app_assoc; by apply list_lookup_middle).
Qed.

(** ** Projections of a frame with distinct column labels *)

Lemma positions_from_absent n key labels :
  key ∉ labels → positions_from n key labels = [].
Proof.
  revert n. induction labels as [|l labels IH]; intros n Hn; simpl; [done|].
  apply not_elem_of_cons in Hn as [Hne Hn].
  destruct (String.eqb_spec l key) as [->|_]; [done|]. by apply IH.
Qed.

Lemma positions_from_unique n key labels j :
  NoDup labels → labels !! j = Some key → positions_from n key labels = [n + j].
Proof.
  revert n j. induction labels as [|l labels IH]; intros n j Hnd Hj; [done|].
  apply NoDup_cons in Hnd as [Hl Hnd]. simpl. destruct j as [|j]; simpl in Hj.
  - injection Hj as ->. rewrite String.eqb_refl, positions_from_absent by done.
    by rewrite Nat.add_0_r.
  - destruct (String.eqb_spec l key) as [->|_].
    + exfalso. apply Hl, list_elem_of_lookup. eauto.
    + rewrite (IH (S n) j) by done. f_equal. lia.
Qed.

Lemma getitem_unique df key j :
  NoDup (columns df) → columns df !! j = Some key →
  getitem df key = Ok (VSeries (column_series df j)) ∧
  getitem_list df [key] = Ok (take_columns df [j]) ∧
  columns (take_columns df [j]) = [key] ∧
  s_name (column_series df j) = Some key.
Proof.
  intros Hnd Hj. unfold getitem, getitem_list, positions. simpl.
  rewrite (positions_from_unique 0 key (columns df) j) by done. simpl.
  by rewrite Hj.
Qed.

Lemma random_choice_member {A} w (seq : list A) k :
  seq ≠ [] →
  ∃ j c, seq !! j = Some c ∧
         random_choice w seq k = (set_py_random (S (py_random k)) k, Ok c).
Proof.
  intros Hne. unfold random_choice.
  destruct seq as [|x seq]; [done|]. cbn [length]. cbv zeta.
  assert (Hlt : randbits w (py_random k) mod S (length seq) < length (x :: seq))
    by (apply Nat.mod_upper_bound; done).
  destruct (lookup_lt_is_Some_2 _ _ Hlt) as [c Hc].
  eexists _, c. split; [exact Hc|]. by rewrite Hc.
Qed.

(** ** Weakest preconditions for cell code *)

Lemma wp_run {A} (m : M A) Q E k :
  wp m Q E k →
  match snd (m k) with
  | Ok a => Q a (fst (m k))
  | Raise e => E e (fst (m k))
  end.
Proof. unfold wp. by destruct (m k) as [k' [a|e]]. Qed.

Lemma wp_ret {A} (a : A) Q E k : Q a k → wp (mret a) Q E k.
Proof. done. Qed.

Lemma wp_bind {A B} (m : M A) (f : A → M B) Q E k :
  wp m (fun a k' => wp (f a) Q E k') E k → wp (m ≫= f) Q E k.
Proof. unfold wp, mbind, M_bind. by destruct (m k) as [k' [a|e]]. Qed.

Lemma wp_lift_ok {A} (r : Result A) a Q E k : r = Ok a → Q a k → wp (lift r) Q E k.
Proof. by intros ->. Qed.

Lemma wp_lift_raise {A} (r : Result A) e Q E k :
  r = Raise e → E e k → wp (lift r) Q E k.
Proof. by intros ->. Qed.

Lemma wp_name_bound {A} id (get : Kernel → option A) v Q E k :
  get k = Some v → Q v k → wp (name id get) Q E k.
Proof. unfold wp, name. by intros ->. Qed.

Lemma wp_name_unbound {A} id (get : Kernel → option A) Q E k :
  get k = None → E (NameError id) k → wp (name id get) Q E k.
Proof. unfold wp, name. by intros ->. Qed.

Lemma wp_assign set Q E k : Q tt (set k) → wp (assign set) Q E k.
Proof. done. Qed.

Lemma wp_call_ok w c Q E k :
  faults w c = None → Q (VRet c) (log_call c k) → wp (call w c) Q E k.
Proof. unfold wp, call. by intros ->. Qed.

Lemma wp_call_raise w c e Q E k :
  faults w c = Some e → E e (log_call c k) → wp (call w c) Q E k.
Proof. unfold wp, call. by intros ->. Qed.

Lemma wp_random_choice {A} w (seq : list A) c Q E k :
  length seq ≠ 0 →
  seq !! (randbits w (py_random k) mod length seq) = Some c →
  Q c (set_py_random (S (py_random k)) k) → wp (random_choice w seq) Q E k.
Proof.
  unfold wp, random_choice. destruct (length seq) eqn:Hn; [done|].
  intros _ Hc. cbv zeta. by rewrite Hc.
Qed.

(** One step of symbolic execution.  A name whose binding is not known
    and a library call each split the run in two. *)
Ltac wp_name_step get k :=
  first
    [ eapply wp_name_bound; [solve [cbn; first [reflexivity|eassumption]]|]
    | let H := fresh "Hname" in
      destruct (get k) eqn:H;
      [ eapply wp_name_bound; [exact H|]
      | eapply wp_name_unbound; [exact H|] ] ].

Ltac wp_lift_step r :=
  first
    [ eapply wp_lift_ok; [solve [first [reflexivity|eassumption]]|]
    | let H := fresh "Hexpr" in
      destruct r eqn:H;
      [ eapply wp_lift_ok; [reflexivity|]
      | eapply wp_lift_raise; [reflexivity|] ] ].

Ltac wp_call_step w c :=
  first
    [ eapply wp_call_ok; [solve [eauto]|]
    | let H := fresh "Hcall" in
      destruct (faults w c) eqn:H;
      [ eapply wp_call_raise; [exact H|]
      | eapply wp_call_ok; [exact H|] ] ].

Ltac wp_step :=
  lazymatch goal with
  | |- wp (_ ≫= _) _ _ _ => apply wp_bind
  | |- wp (mret _) _ _ _ => apply wp_ret
  | |- wp (assign _) _ _ _ => apply wp_assign
  | |- wp (display_result _) _ _ _ => apply wp_assign
  | |- wp (name _ ?get) _ _ ?k => wp_name_step get k
  | |- wp (lift ?r) _ _ _ => wp_lift_step r
  | |- wp (call ?w ?c) _ _ _ => wp_call_step w c
  | |- wp (random_choice _ _) _ _ _ =>
      eapply wp_random_choice; [eassumption|cbn; eassumption|]
  | |- wp (if ?b then _ else _) _ _ _ => destruct b eqn:?
  end; cbv beta.

(** ** The random column of the bokeh and bqplot cells *)

Lemma bokeh_cell_wp w k d c :
  data k = Some d → NoDup (columns d) → length (columns d) ≠ 0 →
  columns d !! (randbits w (py_random k) mod length (columns d)) = Some c →
  wp (bokeh_cell w)
    (fun _ k' =>
       col k' = Some c ∧
       ∃ sub, getitem_list d [c] = Ok sub ∧
              CallFn Bokeh "ColumnDataSource"
                [VFrame (rename_columns sub [(c, "series")])] [] ∈ calls k')
    (fun e k' =>
       (faults w (CallFn Bokeh "output_notebook" [] []) = None →
        col k' = Some c ∧
        ∃ sub, getitem_list d [c] = Ok sub ∧
               CallFn Bokeh "ColumnDataSource"
                 [VFrame (rename_columns sub [(c, "series")])] [] ∈ calls k') ∧
       ∃ c', c' ∈ calls k' ∧ faults w c' = Some e)
    k.
Proof.
  intros Hd Hnd Hne Hc.
  destruct (getitem_unique d c _ Hnd Hc) as (_ & Hsub & _).
  unfold bokeh_cell. repeat wp_step;
    lazymatch goal with
    | |- (_ → _) ∧ _ =>
        split;
        [ intros ?;
          first [ congruence
                | split; [reflexivity|eexists; split; [exact Hsub|in_log]] ]
        | eexists; split; [|eassumption]; in_log ]
    | |- _ => split; [reflexivity|eexists; split; [exact Hsub|in_log]]
    end.
Qed.

Lemma bqplot_cell_wp w k d c :
  data k = Some d → NoDup (columns d) → length (columns d) ≠ 0 →
  columns d !! (randbits w (py_random k) mod length (columns d)) = Some c →
  wp (bqplot_cell w)
    (fun _ k' =>
       col k' = Some c ∧
       ∃ src, getitem d c = Ok src ∧ source k' = Some src)
    (fun e k' =>
       (col k' = Some c ∧ ∃ src, getitem d c = Ok src ∧ source k' = Some src) ∧
       ∃ c', c' ∈ calls k' ∧ faults w c' = Some e)
    k.
Proof.
  intros Hd Hnd Hne Hc.
  destruct (getitem_unique d c _ Hnd Hc) as (Hsrc & _).
  unfold bqplot_cell. repeat wp_step;
    lazymatch goal with
    | |- (_ ∧ _) ∧ _ =>
        split;
        [ split; [reflexivity|eexists; split; [exact Hsrc|reflexivity]]
        | eexists; split; [|eassumption]; in_log ]
    | |- _ => split; [reflexivity|eexists; split; [exact Hsrc|reflexivity]]
    end.
Qed.

(** C10.  The frame the setup cell binds to [data] has six distinct
    column labels.  In any kernel holding that frame, the bokeh cell and
    the bqplot cell draw a label [c] that is in [data.columns];
    [data[[c]]] is the frame of that one column and [data[c]] its
    Series, so neither raises; and either cell raises only an exception
    that one of its library calls raised. *)
Theorem random_column_is_projectable (w : World) (k0 : Kernel) :
  ∃ d, data (fst (setup_cell w k0)) = Some d ∧
       ncols d = 6 ∧ NoDup (columns d) ∧
       ∀ w' k, data k = Some d →
         ∃ j c, columns d !! j = Some c ∧ c ∈ columns d ∧
           getitem_list d [c] = Ok (take_columns d [j]) ∧
           columns (take_columns d [j]) = [c] ∧
           getitem d c = Ok (VSeries (column_series d j)) ∧
           s_name (column_series d j) = Some c ∧
           (faults w' (CallFn Bokeh "output_notebook" [] []) = None →
              col (fst (bokeh_cell w' k)) = Some c ∧
              CallFn Bokeh "ColumnDataSource"
                [VFrame (rename_columns (take_columns d [j]) [(c, "series")])] []
              ∈ calls (fst (bokeh_cell w' k))) ∧
           (∀ e, snd (bokeh_cell w' k) = Raise e →
                 ∃ c', c' ∈ calls (fst (bokeh_cell w' k)) ∧ faults w' c' = Some e) ∧
           col (fst (bqplot_cell w' k)) = Some c ∧
           source (fst (bqplot_cell w' k)) = Some (VSeries (column_series d j)) ∧
           (∀ e, snd (bqplot_cell w' k) = Raise e →
                 ∃ c', c' ∈ calls (fst (bqplot_cell w' k)) ∧ faults w' c' = Some e).
Proof.
  destruct (setup_cell_data w k0) as (vals & Hd & _).
  eexists. split; [exact Hd|]. split; [reflexivity|].
  assert (Hnd : NoDup (getCols 6)) by (apply (bool_decide_unpack _); by vm_compute).
  split; [exact Hnd|]. intros w' k Hk.
  set (d := mkDataFrame (makeDateIndex 12 MS) (getCols 6) vals) in *.
  assert (Hne : length (columns d) ≠ 0) by done.
  assert (Hlt : randbits w' (py_random k) mod length (columns d) < length (columns d))
    by (by apply Nat.mod_upper_bound).
  destruct (lookup_lt_is_Some_2 _ _ Hlt) as [c Hc].
  destruct (getitem_unique d c _ Hnd Hc) as (Hget & Hsub & Hcols & Hname).
  pose proof (wp_run _ _ _ _ (bokeh_cell_wp w' k d c Hk Hnd Hne Hc)) as Hbokeh.
  pose proof (wp_run _ _ _ _ (bqplot_cell_wp w' k d c Hk Hnd Hne Hc)) as Hbq.
  exists (randbits w' (py_random k) mod length (columns d)), c.
  split; [done|]. split; [apply list_elem_of_lookup; eauto|].
  do 4 (split; [done|]).
  rewrite Hsub, Hget in *.
  split; [|split; [|split; [|split]]].
  - intros H0. destruct (snd (bokeh_cell w' k)).
    + destruct Hbokeh as (Hcol & sub & [= <-] & Hin). done.
    + destruct Hbokeh as (Hok & _). destruct (Hok H0) as (Hcol & sub & [= <-] & Hin). done.
  - intros e He. rewrite He in Hbokeh. apply Hbokeh.
  - destruct (snd (bqplot_cell w' k)).
    + apply Hbq.
    + apply Hbq.
  - destruct (snd (bqplot_cell w' k)).
    + destruct Hbq as (_ & src & [= <-] & Hs). done.
    + destruct Hbq as ((_ & src & [= <-] & Hs) & _). done.
  - intros e He. rewrite He in Hbq. apply Hbq.
Qed.

(** C2.  The setup cell is the first cell and the only one of its kind;
    whatever steps follow it (any cell but the setup cell, run in any
    order and any number of times, any brushing of the bqplot figure,
    any pick in a dropdown), and whether they return or raise, the
    frame bound to [data] stays the one it was: same index, same
    columns, same values. *)
Theorem data_is_never_mutated (w : World) (steps : list Step) (k : Kernel) :
  Forall (fun s => s ≠ Run Setup) steps →
  data (session w steps k) = data k ∧
  head notebook = Some Setup ∧ Setup ∉ tail notebook.
Proof.
  intros Hsteps. split; [by apply session_same_data|]. split; [done|].
  unfold notebook. simpl. intros H.
  repeat (apply elem_of_cons in H as [H|H]; [discriminate|]).
  by apply elem_of_nil in H.
Qed.

Lemma data_is_never_mutated_witness :
  data (session demo_world demo_later_steps (fst (setup_cell demo_world fresh_kernel)))
  = data (fst (setup_cell demo_world fresh_kernel)) ∧
  head notebook = Some Setup ∧ Setup ∉ tail notebook.
Proof.
  apply (data_is_never_mutated demo_world demo_later_steps
           (fst (setup_cell demo_world fresh_kernel))).
  unfold demo_later_steps, notebook. simpl.
  repeat (constructor; [discriminate|]). constructor.
Defined.

(** ** Exceptions of library calls *)

Open Scope list_scope.

Section Traced.

Variable w : World.












End Traced.



(** *** Nothing is undone *)

#[global] Instance keeps_refl : Reflexive keeps.
Proof. intros k. by repeat split. Qed.

#[global] Instance keeps_trans : Transitive keeps.
Proof.
  intros k1 k2 k3 (?&?&?&?&?&?&?&?&?) (?&?&?&?&?&?&?&?&?).
  repeat split; try (by etransitivity); auto.
Qed.

Section RespectsSetup.

Context (R : Kernel → Kernel → Prop) `{!Reflexive R} `{!Transitive R}.


End RespectsSetup.






(** ** The TSExplorer object *)

Lemma getitem_not_tsexplorer d key v :
  getitem d key = Ok v → is_tsexplorer v = false.
Proof.
  unfold getitem. destruct (positions key d) as [|j [|j' js]]; by intros [= <-].
Qed.

Lemma wp_random_choice_any {A} w (seq : list A) (Q : A → Kernel → Prop)
    (E : Exn → Kernel → Prop) k :
  (∀ c, Q c (set_py_random (S (py_random k)) k)) →
  (∀ e, E e k) → (∀ e, E e (set_py_random (S (py_random k)) k)) →
  wp (random_choice w seq) Q E k.
Proof.
  intros HQ HE HE'. unfold wp, random_choice.
  destruct (length seq); [apply HE|]. cbv zeta.
  destruct (seq !! _); [apply HQ|apply HE'].
Qed.

Ltac tse_use_solve :=
  simpl;
  first
    [ exact I
    | by (split; [|eexists _, _])
    | by intros [=]
    | by intros _
    | let Ht := fresh in
      intros Ht; exfalso;
      first
        [ match goal with
          | Hs : ∀ sel, _ = Some sel → is_tsexplorer (selector_obj sel) = false,
            Hn : _ = Some ?s |- _ => rewrite (Hs s Hn) in Ht; discriminate
          end
        | erewrite getitem_not_tsexplorer in Ht by eassumption; discriminate ] ].

Ltac tse_inv_solve :=
  unfold set_selected, set_label_value; repeat case_match; try congruence;
  lazymatch goal with
  | H : tse_inv ?k |- tse_inv _ =>
      let Hcalls := fresh "Hcalls" in
      let Hsel := fresh "Hsel" in
      destruct H as [Hcalls Hsel]; split;
      [ simpl; repeat apply Forall_app_2;
        first [ exact Hcalls | apply Forall_singleton; tse_use_solve ]
      | simpl;
        first [ exact Hsel
              | by intros ? [= <-]
              | intros ? [= <-]; simpl; by eapply Hsel ] ]
  end.

Lemma exec_tse_inv w s k :
  tse_inv k → wp (exec w s) (fun _ k' => tse_inv k') (fun _ k' => tse_inv k') k.
Proof.
  intros Hinv.
  destruct s as [c|sel change|c]; [destruct c|..];
    unfold exec, run_cell, styles_cell, matplotlib_cell, seaborn_cell,
      bokeh_cell, bqplot_cell, interact_cell, dropdown_cell, tse_cell,
      tse_selected_data_cell, tse_show_cell, tse_reset_cell,
      index_sel_dt_callback, select_series.
  all: try (repeat first
              [ wp_step
              | apply wp_random_choice_any; [intros ?|intros ?|intros ?] ];
            tse_inv_solve).
  destruct (setup_cell_run w k) as (d & t & _ & _ & _ & _ & Hrun).
  unfold wp. rewrite Hrun. destruct (faults w _); tse_inv_solve.
Qed.

Lemma session_tse_inv w steps k : tse_inv k → tse_inv (session w steps k).
Proof.
  revert k. induction steps as [|s steps IH]; intros k Hinv; simpl; [done|].
  apply IH. pose proof (wp_run _ _ _ _ (exec_tse_inv w s k Hinv)) as H.
  by destruct (snd (exec w s k)).
Qed.

(** C7.  In every session from a fresh kernel (any cells in any order,
    any brushing and picking, any library failures) each logged call
    into the module mywidgets is the constructor
    [TSExplorer(data, layout=...)], each attribute read on an object of
    that module is [selected_data], and each method call on it is
    [reset(selected_feature=True, selected_dates=True)].  Run All in the
    demo world makes exactly four such calls: the constructor, a read
    of [selected_data], the [reset], and a second read. *)
Theorem tsexplorer_used_through_three_interfaces (w : World) (steps : list Step) :
  Forall tse_use_ok (calls (session w steps fresh_kernel)) ∧
  List.filter on_tsexplorer (calls demo_kernel)
  = [demo_tsexplorer;
     GetAttr (VRet demo_tsexplorer) "selected_data";
     CallMethod (VRet demo_tsexplorer) "reset" []
       [("selected_feature", VBool true); ("selected_dates", VBool true)];
     GetAttr (VRet demo_tsexplorer) "selected_data"].
Proof.
  split; [|vm_compute; reflexivity].
  apply session_tse_inv. split; [constructor|done].
Qed.

(** ** What the plotting cells hand to their libraries *)

Ltac passed_solve :=
  unfold passed; simpl; rewrite <- ?app_assoc, drop_app_length; reflexivity.

Lemma matplotlib_cell_wp w k d :
  (∀ c, faults w c = None) → data k = Some d →
  wp (matplotlib_cell w)
    (fun _ k' => passed k k' = [VFrame d] ∧
                 fsize k' = Some (VTuple [VInt 18; VInt 5]))
    (fun _ _ => False) k.
Proof.
  intros Hnf Hd. unfold matplotlib_cell. repeat wp_step.
  split; [passed_solve|reflexivity].
Qed.

Lemma seaborn_cell_wp w k d :
  (∀ c, faults w c = None) → data k = Some d →
  fsize k = Some (VTuple [VInt 18; VInt 5]) →
  wp (seaborn_cell w) (fun _ k' => passed k k' = [VFrame d]) (fun _ _ => False) k.
Proof.
  intros Hnf Hd Hfs. unfold seaborn_cell. repeat wp_step. passed_solve.
Qed.

Lemma bokeh_cell_passed w k d c :
  (∀ c, faults w c = None) → data k = Some d →
  NoDup (columns d) → length (columns d) ≠ 0 →
  columns d !! (randbits w (py_random k) mod length (columns d)) = Some c →
  wp (bokeh_cell w)
    (fun _ k' =>
       ∃ sub, getitem_list d [c] = Ok sub ∧
              passed k k' = [VFrame (rename_columns sub [(c, "series")]);
                             VFrame (rename_columns sub [(c, "series")])])
    (fun _ _ => False) k.
Proof.
  intros Hnf Hd Hnd Hne Hc.
  destruct (getitem_unique d c _ Hnd Hc) as (_ & Hsub & _).
  unfold bokeh_cell. repeat wp_step.
  eexists. split; [exact Hsub|]. passed_solve.
Qed.

Lemma bqplot_cell_passed w k d c :
  (∀ c, faults w c = None) → data k = Some d →
  NoDup (columns d) → length (columns d) ≠ 0 →
  columns d !! (randbits w (py_random k) mod length (columns d)) = Some c →
  wp (bqplot_cell w)
    (fun _ k' =>
       ∃ src, getitem d c = Ok src ∧ passed k k' = [src; src; src])
    (fun _ _ => False) k.
Proof.
  intros Hnf Hd Hnd Hne Hc.
  destruct (getitem_unique d c _ Hnd Hc) as (Hsrc & _).
  unfold bqplot_cell. repeat wp_step.
  eexists. split; [exact Hsrc|]. passed_solve.
Qed.

Lemma wp_run_ok {A} (m : M A) (Q : A → Kernel → Prop) k :
  wp m Q (fun _ _ => False) k → ∃ a, snd (m k) = Ok a ∧ Q a (fst (m k)).
Proof. unfold wp. destruct (m k) as [k' [a|e]]; [eauto|done]. Qed.

Lemma cell_same_data w c k : c ≠ Setup → data (fst (run_cell w c k)) = data k.
Proof. intros Hc. apply (exec_same_data w (Run c)). congruence. Qed.

(** C3 (amended).  When no library call fails, the matplotlib cell and
    the seaborn cell each hand the full frame bound to [data] to their
    library; the bokeh cell hands its library one column of it, drawn at
    random and renamed 'series', in a frame of its own; and a fourth
    library, bqplot, is handed the Series of one column drawn at
    random. *)
Theorem plotting_cells_pass_frame_or_one_column
    (w : World) (k : Kernel) (d : DataFrame) :
  (∀ c, faults w c = None) → data k = Some d →
  NoDup (columns d) → columns d ≠ [] →
  let k1 := fst (matplotlib_cell w k) in
  let k2 := fst (seaborn_cell w k1) in
  let k3 := fst (bokeh_cell w k2) in
  let k4 := fst (bqplot_cell w k3) in
  passed k k1 = [VFrame d] ∧
  passed k1 k2 = [VFrame d] ∧
  (∃ j c, columns d !! j = Some c ∧
     let r := rename_columns (take_columns d [j]) [(c, "series")] in
     passed k2 k3 = [VFrame r; VFrame r] ∧
     columns r = ["series"] ∧ index r = index d ∧
     df_values r = [default [] (df_values d !! j)]) ∧
  (∃ j c, columns d !! j = Some c ∧
     passed k3 k4 = [VSeries (column_series d j); VSeries (column_series d j);
                     VSeries (column_series d j)]) ∧
  data k4 = Some d.
Proof.
  intros Hnf Hd Hnd Hne k1 k2 k3 k4.
  assert (Hlen : length (columns d) ≠ 0) by (by destruct (columns d)).
  assert (Hd1 : data k1 = Some d)
    by (rewrite <- Hd; by apply (cell_same_data w MatplotlibCell)).
  assert (Hd2 : data k2 = Some d)
    by (rewrite <- Hd1; by apply (cell_same_data w SeabornCell)).
  assert (Hd3 : data k3 = Some d)
    by (rewrite <- Hd2; by apply (cell_same_data w BokehCell)).
  assert (Hd4 : data k4 = Some d)
    by (rewrite <- Hd3; by apply (cell_same_data w BqplotCell)).
  destruct (wp_run_ok _ _ _ (matplotlib_cell_wp w k d Hnf Hd)) as (_ & _ & Hp1 & Hfs).
  destruct (wp_run_ok _ _ _ (seaborn_cell_wp w k1 d Hnf Hd1 Hfs)) as (_ & _ & Hp2).
  assert (Hchoice : ∀ k', ∃ j c, columns d !! j = Some c ∧
            columns d !! (randbits w (py_random k') mod length (columns d)) = Some c).
  { intros k'.
    assert (Hlt : randbits w (py_random k') mod length (columns d) < length (columns d))
      by (by apply Nat.mod_upper_bound).
    destruct (lookup_lt_is_Some_2 _ _ Hlt) as [c Hc]. eauto. }
  split; [done|]. split; [done|]. split; [|split; [|done]].
  - destruct (Hchoice k2) as (j & c & Hj & Hc).
    destruct (wp_run_ok _ _ _ (bokeh_cell_passed w k2 d c Hnf Hd2 Hnd Hlen Hc))
      as (_ & _ & sub & Hsub & Hp3).
    destruct (getitem_unique d c j Hnd Hj) as (_ & Hsub' & _).
    rewrite Hsub' in Hsub. injection Hsub as <-.
    exists j, c. split; [done|]. cbv zeta. split; [done|].
    unfold rename_columns, take_columns. simpl. rewrite Hj. simpl.
    by rewrite String.eqb_refl.
  - destruct (Hchoice k3) as (j & c & Hj & Hc).
    destruct (wp_run_ok _ _ _ (bqplot_cell_passed w k3 d c Hnf Hd3 Hnd Hlen Hc))
      as (_ & _ & src & Hsrc & Hp4).
    destruct (getitem_unique d c j Hnd Hj) as (Hsrc' & _).
    rewrite Hsrc' in Hsrc. injection Hsrc as <-.
    by exists j, c.
Qed.

Lemma plotting_cells_pass_frame_or_one_column_witness :
  let k := fst (setup_cell demo_world fresh_kernel) in
  passed k (fst (matplotlib_cell demo_world k)) = [VFrame demo_frame] ∧
  passed (fst (matplotlib_cell demo_world k))
         (fst (seaborn_cell demo_world (fst (matplotlib_cell demo_world k))))
  = [VFrame demo_frame].
Proof.
  intros k.
  assert (Hd : data k = Some demo_frame) by (vm_compute; reflexivity).
  assert (Hnd : NoDup (columns demo_frame))
    by (apply (bool_decide_unpack _); vm_compute; exact I).
  assert (Hne : columns demo_frame ≠ []) by (vm_compute; discriminate).
  destruct (plotting_cells_pass_frame_or_one_column demo_world k demo_frame
              (fun _ => eq_refl) Hd Hnd Hne) as (H1 & H2 & _).
  split; [exact H1|exact H2].
Defined.

(** C3 as stated fails.  In the demo world the bokeh cell hands its
    library a frame whose only column is 'series', not the frame bound
    to [data], whose columns are A to F; and past the three libraries
    named, a call into bqplot receives data too. *)
Lemma bokeh_cell_does_not_pass_full_frame :
  (∃ r, passed demo_kernel_seaborn demo_kernel_bokeh = [VFrame r; VFrame r] ∧
        columns r = ["series"]) ∧
  data demo_kernel_seaborn = Some demo_frame ∧
  columns demo_frame = ["A"; "B"; "C"; "D"; "E"; "F"] ∧
  ¬ Forall (fun v => v = VFrame demo_frame)
      (passed demo_kernel_seaborn demo_kernel_bokeh) ∧
  ∃ c, c ∈ calls demo_kernel ∧ lib_of c = Some Bqplot ∧ datasets_call c ≠ [].
Proof.
  assert (Hr : ∃ r, passed demo_kernel_seaborn demo_kernel_bokeh = [VFrame r; VFrame r] ∧
                    columns r = ["series"]).
  { eexists. split; [vm_compute; reflexivity|reflexivity]. }
  assert (Hcols : columns demo_frame = ["A"; "B"; "C"; "D"; "E"; "F"])
    by (vm_compute; reflexivity).
  split; [exact Hr|]. split; [vm_compute; reflexivity|]. split; [exact Hcols|]. split.
  - destruct Hr as (r & -> & Hc). intros [Heq _]%Forall_cons.
    injection Heq as ->. rewrite Hcols in Hc. discriminate Hc.
  - assert (Hlast : ∃ c, calls demo_kernel !! 17 = Some c ∧
                         lib_of c = Some Bqplot ∧ datasets_call c ≠ []).
    { eexists. split; [vm_compute; reflexivity|]. split; [reflexivity|].
      vm_compute. discriminate. }
    destruct Hlast as (c & Hc & Hlib & Hdata). exists c.
    split; [|done]. apply list_elem_of_lookup. eauto.
Qed.

(** ** The dropdown callback *)

Lemma select_series_run w k d fs c j :
  data k = Some d → fsize k = Some fs →
  NoDup (columns d) → columns d !! j = Some c →
  let plot := CallMethod (VSeries (column_series d j)) "plot" [] [("figsize", fs)] in
  select_series w c k
  = (log_call plot k,
     match faults w plot with Some e => Raise e | None => Ok tt end).
Proof.
  intros Hd Hfs Hnd Hj plot.
  destruct (getitem_unique d c j Hnd Hj) as (Hget & _).
  unfold select_series. run_monad. rewrite Hd. cbn. rewrite Hget. cbn.
  rewrite Hfs. cbn. fold plot. by destruct (faults w plot).
Qed.

Lemma interact_cell_calls w k d :
  data k = Some d →
  let interact := CallFn Ipywidgets "widgets.interact" [] [("col", VColumns (columns d))] in
  calls (fst (interact_cell w k)) !! length (calls k) = Some interact ∧
  (faults w interact = None →
   calls (fst (interact_cell w k)) !! S (length (calls k))
   = Some (CallMethod (VRet interact) "__call__" [VFun "select_series"] [])).
Proof.
  intros Hd interact. unfold interact_cell. run_monad. rewrite Hd. cbn. fold interact.
  destruct (faults w interact) eqn:H1; cbn.
  - split; [by apply list_lookup_middle|done].
  - destruct (faults w (CallMethod _ _ _ _)); cbn; rewrite <- app_assoc;
      (split; [by apply list_lookup_middle|intros _]);
      by rewrite lookup_app_r, Nat.sub_succ_l, Nat.sub_diag by lia.
Qed.

Lemma dropdown_cell_calls w k d :
  data k = Some d →
  let dropdown := CallFn Ipywidgets "widgets.Dropdown" []
                    [("options", VColumns (columns d)); ("description", VStr "Feature:")] in
  calls (fst (dropdown_cell w k)) !! length (calls k) = Some dropdown ∧
  (faults w dropdown = None →
   calls (fst (dropdown_cell w k)) !! S (length (calls k))
   = Some (CallFn Ipywidgets "widgets.interact" [] [("col", VRet dropdown)])).
Proof.
  intros Hd dropdown. unfold dropdown_cell. run_monad. rewrite Hd. cbn. fold dropdown.
  destruct (faults w dropdown) eqn:H1; cbn.
  - split; [by apply list_lookup_middle|done].
  - destruct (faults w (CallFn Ipywidgets "widgets.interact" _ _)); cbn;
      [|destruct (faults w (CallMethod _ _ _ _)); cbn];
      rewrite <- ?app_assoc;
      (split; [by apply list_lookup_middle|intros _]);
      by rewrite lookup_app_r, Nat.sub_succ_l, Nat.sub_diag by lia.
Qed.

(** C5.  In a kernel where [data] (with distinct column labels) and
    [fsize] are bound, picking a column [c] of [data.columns] in a
    dropdown runs [select_series(c)], which selects the Series
    [data[c]] and makes one library call, the plot of that Series, and
    changes nothing else; both widget cells offer exactly
    [data.columns] as the dropdown's options and decorate
    [select_series]. *)
Theorem select_series_plots_the_selected_column
    (w : World) (k : Kernel) (d : DataFrame) (fs : PyVal) (c : string) :
  data k = Some d → fsize k = Some fs → NoDup (columns d) → c ∈ columns d →
  ∃ j, columns d !! j = Some c ∧
    getitem d c = Ok (VSeries (column_series d j)) ∧
    s_name (column_series d j) = Some c ∧
    s_values (column_series d j) = default [] (df_values d !! j) ∧
    let plot := CallMethod (VSeries (column_series d j)) "plot" [] [("figsize", fs)] in
    exec w (Pick c) k
    = (log_call plot k, match faults w plot with Some e => Raise e | None => Ok tt end) ∧
    let interact := CallFn Ipywidgets "widgets.interact" []
                      [("col", VColumns (columns d))] in
    calls (fst (interact_cell w k)) !! length (calls k) = Some interact ∧
    (faults w interact = None →
     calls (fst (interact_cell w k)) !! S (length (calls k))
     = Some (CallMethod (VRet interact) "__call__" [VFun "select_series"] [])) ∧
    let dropdown := CallFn Ipywidgets "widgets.Dropdown" []
                      [("options", VColumns (columns d));
                       ("description", VStr "Feature:")] in
    calls (fst (dropdown_cell w k)) !! length (calls k) = Some dropdown ∧
    (faults w dropdown = None →
     calls (fst (dropdown_cell w k)) !! S (length (calls k))
     = Some (CallFn Ipywidgets "widgets.interact" [] [("col", VRet dropdown)])).
Proof.
  intros Hd Hfs Hnd Hc. apply list_elem_of_lookup in Hc as [j Hj].
  destruct (getitem_unique d c j Hnd Hj) as (Hget & _ & _ & Hname).
  exists j. do 4 (split; [done|]). cbv zeta.
  split; [apply (select_series_run w k d fs c j Hd Hfs Hnd Hj)|].
  split; [apply (interact_cell_calls w k d Hd)|].
  split; [apply (interact_cell_calls w k d Hd)|].
  apply (dropdown_cell_calls w k d Hd).
Qed.

Lemma select_series_plots_the_selected_column_witness :
  ∃ j, columns demo_frame !! j = Some "C" ∧
       fst (exec demo_world (Pick "C") demo_kernel)
       = log_call (CallMethod (VSeries (column_series demo_frame j)) "plot" []
                     [("figsize", VTuple [VInt 18; VInt 5])]) demo_kernel.
Proof.
  assert (Hd : data demo_kernel = Some demo_frame) by (vm_compute; reflexivity).
  assert (Hfs : fsize demo_kernel = Some (VTuple [VInt 18; VInt 5]))
    by (vm_compute; reflexivity).
  assert (Hnd : NoDup (columns demo_frame))
    by (apply (bool_decide_unpack _); vm_compute; exact I).
  assert (Hc : "C" ∈ columns demo_frame)
    by (apply (list_elem_of_lookup_2 _ 2); vm_compute; reflexivity).
  destruct (select_series_plots_the_selected_column demo_world demo_kernel demo_frame
              (VTuple [VInt 18; VInt 5]) "C" Hd Hfs Hnd Hc)
    as (j & Hj & _ & _ & _ & Hrun & _).
  exists j. split; [exact Hj|]. cbv zeta in Hrun. by rewrite Hrun.
Defined.

(** * Further properties of the code *)

(** ** The order of floats

    [<] and [==] on float64, through the IEEE 754 comparison: [<] is
    irreflexive and transitive, [==] is symmetric and transitive and
    compatible with [<], two numbers are comparable, and a comparison
    with NaN is false. *)

Lemma cmp_em_spec e1 m1 e2 m2 :
  match cmp_em e1 m1 e2 m2 with
  | Lt => (e1 < e2)%Z ∨ (e1 = e2 ∧ (m1 < m2)%positive)
  | Eq => e1 = e2 ∧ m1 = m2
  | Gt => (e2 < e1)%Z ∨ (e1 = e2 ∧ (m2 < m1)%positive)
  end.
Proof.
  unfold cmp_em. change (Pos.compare_cont Eq m1 m2) with (Pos.compare m1 m2).
  destruct (Z.compare_spec e1 e2); [|lia..].
  destruct (Pos.compare_spec m1 m2); lia.
Qed.

Lemma cmp_em_refl e m : cmp_em e m e m = Eq.
Proof.
  pose proof (cmp_em_spec e m e m). destruct (cmp_em e m e m); [done|exfalso; lia..].
Qed.

Lemma cmp_em_antisym e1 m1 e2 m2 : cmp_em e2 m2 e1 m1 = CompOpp (cmp_em e1 m1 e2 m2).
Proof.
  pose proof (cmp_em_spec e1 m1 e2 m2). pose proof (cmp_em_spec e2 m2 e1 m1).
  destruct (cmp_em e1 m1 e2 m2), (cmp_em e2 m2 e1 m1); simpl; try reflexivity;
    exfalso; lia.
Qed.

Lemma cmp_em_trans c e1 m1 e2 m2 e3 m3 :
  cmp_em e1 m1 e2 m2 = c → cmp_em e2 m2 e3 m3 = c → cmp_em e1 m1 e3 m3 = c.
Proof.
  pose proof (cmp_em_spec e1 m1 e2 m2). pose proof (cmp_em_spec e2 m2 e3 m3).
  pose proof (cmp_em_spec e1 m1 e3 m3).
  intros <- H23. rewrite H23 in *.
  destruct (cmp_em e1 m1 e2 m2), (cmp_em e1 m1 e3 m3); try reflexivity;
    exfalso; lia.
Qed.

Lemma SFcompare_finite s1 m1 e1 s2 m2 e2 :
  SFcompare (S754_finite s1 m1 e1) (S754_finite s2 m2 e2)
  = Some match s1, s2 with
         | true, false => Lt
         | false, true => Gt
         | false, false => cmp_em e1 m1 e2 m2
         | true, true => CompOpp (cmp_em e1 m1 e2 m2)
         end.
Proof.
  unfold cmp_em. simpl. destruct s1, s2; try reflexivity.
  by destruct (e1 ?= e2)%Z.
Qed.

Lemma SFcompare_refl f : f ≠ S754_nan → SFcompare f f = Some Eq.
Proof.
  destruct f as [s|s| |s m e]; intros Hf; try done.
  - by destruct s.
  - rewrite SFcompare_finite, cmp_em_refl. by destruct s.
Qed.

Lemma SFcompare_antisym f g c :
  SFcompare f g = Some c → SFcompare g f = Some (CompOpp c).
Proof.
  destruct f as [[]|[]| |[] m1 e1], g as [[]|[]| |[] m2 e2];
    try (simpl; by intros [= <-]);
    rewrite !SFcompare_finite, (cmp_em_antisym e1 m1 e2 m2); intros [= <-];
    by rewrite ?CompOpp_involutive.
Qed.

Lemma SFcompare_total f g :
  f ≠ S754_nan → g ≠ S754_nan → ∃ c, SFcompare f g = Some c.
Proof.
  destruct f as [s1|s1| |s1 m1 e1], g as [s2|s2| |s2 m2 e2]; intros Hf Hg; try done;
    rewrite ?SFcompare_finite; simpl; eauto.
Qed.

Lemma SFcompare_Some f g c :
  SFcompare f g = Some c → f ≠ S754_nan ∧ g ≠ S754_nan.
Proof. by destruct f, g. Qed.

(** Floats that compare [Eq] compare alike with every float. *)
Lemma SFcompare_Eq_l f g h :
  SFcompare f g = Some Eq → SFcompare f h = SFcompare g h.
Proof.
  destruct f as [[]|[]| |[] m1 e1], g as [[]|[]| |[] m2 e2];
    try (simpl; by intros [=]); try (intros _; by destruct h as [[]|[]| |[] ? ?]);
    rewrite SFcompare_finite; intros [= Heq];
    pose proof (cmp_em_spec e1 m1 e2 m2) as Hs;
    destruct (cmp_em e1 m1 e2 m2); try discriminate; by destruct Hs as [-> ->].
Qed.

Lemma SFcompare_trans f g h c :
  SFcompare f g = Some c → SFcompare g h = Some c → SFcompare f h = Some c.
Proof.
  destruct c; [intros Hfg Hgh; by rewrite (SFcompare_Eq_l f g h Hfg)|..];
    destruct f as [[]|[]| |[] m1 e1], g as [[]|[]| |[] m2 e2], h as [[]|[]| |[] m3 e3];
    try (simpl; by intros [=]); try (simpl; by intros _ [=]);
    try (simpl; by intros _ _);
    rewrite !SFcompare_finite; intros [= H1] [= H2]; f_equal;
    first [ by eapply cmp_em_trans
          | rewrite <- cmp_em_antisym in *; by eapply cmp_em_trans ].
Qed.

Lemma is_nan_Prim2SF x : PrimFloat.is_nan x = false ↔ Prim2SF x ≠ S754_nan.
Proof.
  unfold PrimFloat.is_nan. split.
  - intros H%negb_false_iff Hn. rewrite FloatAxioms.eqb_spec, Hn in H. discriminate.
  - intros H. apply negb_false_iff. rewrite FloatAxioms.eqb_spec. unfold SFeqb.
    by rewrite SFcompare_refl.
Qed.

Lemma py_lt_Lt x y : py_lt x y = true ↔ SFcompare (Prim2SF x) (Prim2SF y) = Some Lt.
Proof.
  unfold py_lt. rewrite FloatAxioms.ltb_spec. unfold SFltb.
  destruct (SFcompare _ _) as [[]|]; split; congruence.
Qed.

Lemma py_eq_Eq x y : py_eq x y = true ↔ SFcompare (Prim2SF x) (Prim2SF y) = Some Eq.
Proof.
  unfold py_eq. rewrite FloatAxioms.eqb_spec. unfold SFeqb.
  destruct (SFcompare _ _) as [[]|]; split; congruence.
Qed.

Lemma py_lt_irrefl x : py_lt x x = false.
Proof.
  apply not_true_is_false. rewrite py_lt_Lt. intros H.
  pose proof (SFcompare_Some _ _ _ H) as [Hn _].
  rewrite SFcompare_refl in H by done. discriminate.
Qed.

Lemma py_lt_trans x y z : py_lt x y = true → py_lt y z = true → py_lt x z = true.
Proof. rewrite !py_lt_Lt. apply SFcompare_trans. Qed.

Lemma py_lt_not_nan x y :
  py_lt x y = true → PrimFloat.is_nan x = false ∧ PrimFloat.is_nan y = false.
Proof. rewrite py_lt_Lt, !is_nan_Prim2SF. apply SFcompare_Some. Qed.

Lemma py_eq_not_nan x y :
  py_eq x y = true → PrimFloat.is_nan x = false ∧ PrimFloat.is_nan y = false.
Proof. rewrite py_eq_Eq, !is_nan_Prim2SF. apply SFcompare_Some. Qed.

Lemma py_eq_sym x y : py_eq x y = true → py_eq y x = true.
Proof. rewrite !py_eq_Eq. intros H. by rewrite (SFcompare_antisym _ _ _ H). Qed.

Lemma py_eq_trans x y z : py_eq x y = true → py_eq y z = true → py_eq x z = true.
Proof. rewrite !py_eq_Eq. apply SFcompare_trans. Qed.

Lemma py_eq_lt_l x y z : py_eq x y = true → py_lt x z = py_lt y z.
Proof.
  rewrite py_eq_Eq. intros H. apply eq_true_iff_eq. rewrite !py_lt_Lt.
  by rewrite (SFcompare_Eq_l _ _ (Prim2SF z) H).
Qed.

Lemma py_eq_lt_r x y z : py_eq x y = true → py_lt z x = py_lt z y.
Proof.
  rewrite py_eq_Eq. intros H. apply eq_true_iff_eq. rewrite !py_lt_Lt.
  pose proof (SFcompare_Eq_l _ _ (Prim2SF z) H) as Hz.
  split; intros Hlt; apply SFcompare_antisym in Hlt; simpl in Hlt.
  - rewrite Hz in Hlt. by apply SFcompare_antisym in Hlt.
  - rewrite <- Hz in Hlt. by apply SFcompare_antisym in Hlt.
Qed.

Lemma py_trichotomy x y :
  PrimFloat.is_nan x = false → PrimFloat.is_nan y = false →
  py_lt x y = true ∨ py_eq x y = true ∨ py_lt y x = true.
Proof.
  rewrite !is_nan_Prim2SF, !py_lt_Lt, py_eq_Eq. intros Hx Hy.
  destruct (SFcompare_total _ _ Hx Hy) as [[] Hc]; [by right; left|by left|].
  right; right. by rewrite (SFcompare_antisym _ _ _ Hc).
Qed.

(** ** [min], [max] and the colours *)

Section Order.

Variable op : float → float → bool.
Hypothesis op_irrefl : ∀ x, op x x = false.
Hypothesis op_trans : ∀ x y z, op x y = true → op y z = true → op x z = true.

Lemma min_max_loop_below x l v :
  op v x = false → op v (min_max_loop op x l) = false.
Proof.
  revert x. induction l as [|y l IH]; intros x Hv; simpl; [done|].
  apply IH. destruct (op y x) eqn:Hy; [|done].
  apply not_true_is_false. intros Hvy.
  by rewrite (op_trans v y x) in Hv.
Qed.

Lemma min_max_loop_bound x l v :
  v ∈ x :: l → op v (min_max_loop op x l) = false.
Proof.
  revert x. induction l as [|y l IH]; intros x Hv; simpl.
  - apply list_elem_of_singleton in Hv as ->. apply op_irrefl.
  - apply elem_of_cons in Hv as [->|[->|Hv]%elem_of_cons].
    + apply min_max_loop_below. destruct (op y x) eqn:Hy; [|apply op_irrefl].
      apply not_true_is_false. intros Hxy.
      pose proof (op_trans _ _ _ Hxy Hy) as Hxx. by rewrite op_irrefl in Hxx.
    + apply min_max_loop_below. by destruct (op y x) eqn:Hy; [apply op_irrefl|].
    + apply IH. by apply list_elem_of_further.
Qed.

Hypothesis op_nan :
  ∀ x y, op x y = true → PrimFloat.is_nan x = false ∧ PrimFloat.is_nan y = false.

Lemma min_max_loop_nan x l :
  PrimFloat.is_nan (min_max_loop op x l) = PrimFloat.is_nan x.
Proof.
  revert x. induction l as [|y l IH]; intros x; simpl; [done|].
  rewrite IH. destruct (op y x) eqn:Hy; [|done].
  apply op_nan in Hy as [-> ->]. done.
Qed.

Lemma min_max_loop_nan_head x l :
  PrimFloat.is_nan x = true → min_max_loop op x l = x.
Proof.
  intros Hx. induction l as [|y l IH]; simpl; [done|].
  destruct (op y x) eqn:Hy; [|done].
  apply op_nan in Hy as [_ Hy]. congruence.
Qed.

End Order.

Lemma py_gt_irrefl x : py_gt x x = false.
Proof. apply py_lt_irrefl. Qed.

Lemma py_gt_trans x y z : py_gt x y = true → py_gt y z = true → py_gt x z = true.
Proof. unfold py_gt. intros H1 H2. by apply (py_lt_trans z y x). Qed.

Lemma py_gt_not_nan x y :
  py_gt x y = true → PrimFloat.is_nan x = false ∧ PrimFloat.is_nan y = false.
Proof. unfold py_gt. intros H. by apply py_lt_not_nan in H as [? ?]. Qed.

Lemma min_max_inv op name s m :
  min_max op name s = Ok m → ∃ x l, s_values s = x :: l ∧ m = min_max_loop op x l.
Proof.
  unfold min_max. destruct (s_values s) as [|x l]; [done|].
  intros [= <-]. eauto.
Qed.

Lemma highlight_inv s func color l :
  highlight s func color = Ok l →
  ∃ m, func s = Ok m ∧
       l = map (fun v => if py_eq v m then background color else "") (s_values s).
Proof.
  intros Hl. destruct (func s) as [m|e] eqn:Hm.
  - exists m. split; [done|]. rewrite (highlight_ok _ _ _ _ Hm) in Hl. congruence.
  - by rewrite (highlight_raise _ _ _ _ Hm) in Hl.
Qed.

Lemma highlight_lookup s func color m l i :
  func s = Ok m → highlight s func color = Ok l →
  l !! i = Some (background color) ↔
  ∃ v, s_values s !! i = Some v ∧ py_eq v m = true.
Proof.
  intros Hm Hl. rewrite (highlight_ok _ _ _ _ Hm) in Hl. injection Hl as <-.
  rewrite map_fmap, list_lookup_fmap. split.
  - destruct (s_values s !! i) as [v|]; [|done]. simpl.
    destruct (py_eq v m) eqn:Hv; [eauto|]. by intros [= H].
  - intros (v & -> & Hv). simpl. by rewrite Hv.
Qed.

Lemma py_min_bound s lo v : py_min s = Ok lo → v ∈ s_values s → py_lt v lo = false.
Proof.
  intros (x & l & Hs & ->)%min_max_inv. rewrite Hs.
  apply min_max_loop_bound; [apply py_lt_irrefl|apply py_lt_trans].
Qed.

Lemma py_max_bound s hi v : py_max s = Ok hi → v ∈ s_values s → py_gt v hi = false.
Proof.
  intros (x & l & Hs & ->)%min_max_inv. rewrite Hs.
  apply min_max_loop_bound; [apply py_gt_irrefl|apply py_gt_trans].
Qed.

Lemma py_min_head s x l :
  s_values s = x :: l →
  ∃ lo, py_min s = Ok lo ∧ lo ∈ s_values s ∧
        PrimFloat.is_nan lo = PrimFloat.is_nan x ∧
        (PrimFloat.is_nan x = true → lo = x).
Proof.
  intros Hs. exists (min_max_loop py_lt x l). unfold py_min, min_max. rewrite Hs.
  split; [done|]. split; [apply min_max_loop_elem|].
  split; [apply min_max_loop_nan|apply min_max_loop_nan_head]; apply py_lt_not_nan.
Qed.

Lemma py_max_head s x l :
  s_values s = x :: l →
  ∃ hi, py_max s = Ok hi ∧ hi ∈ s_values s ∧
        PrimFloat.is_nan hi = PrimFloat.is_nan x ∧
        (PrimFloat.is_nan x = true → hi = x).
Proof.
  intros Hs. exists (min_max_loop py_gt x l). unfold py_max, min_max. rewrite Hs.
  split; [done|]. split; [apply min_max_loop_elem|].
  split; [apply min_max_loop_nan|apply min_max_loop_nan_head]; apply py_gt_not_nan.
Qed.

Lemma highlight_nan s func color m :
  func s = Ok m → PrimFloat.is_nan m = true →
  ∃ l, highlight s func color = Ok l ∧ Forall (fun c => c = "") l.
Proof.
  intros Hm Hnan. eexists. split; [by apply highlight_ok|].
  apply Forall_forall. intros c (v & Hc & _)%list_elem_of_In%in_map_iff.
  destruct (py_eq v m) eqn:Hv; [|done].
  apply py_eq_not_nan in Hv as [_ Hv]. congruence.
Qed.

Lemma highlight_number s func color m :
  func s = Ok m → m ∈ s_values s → PrimFloat.is_nan m = false →
  ∃ l, highlight s func color = Ok l ∧ background color ∈ l.
Proof.
  intros Hm Hin Hnan. eexists. split; [by apply highlight_ok|].
  apply list_elem_of_In, in_map_iff. exists m.
  split; [by rewrite py_eq_refl|by apply list_elem_of_In].
Qed.

(** X1.  When [min(s)] returns [lo] and [max(s)] returns [hi], both are
    values of [s]; no value of [s] compares [<] to [lo] or [>] to [hi],
    whatever NaN the Series holds; [lo] is NaN exactly when [hi] is; and
    when they are numbers, every value [v] of [s] that is a number has
    [lo <= v] and [hi >= v]. *)
Theorem min_max_bound_every_value (s : Series) (lo hi : float) :
  py_min s = Ok lo → py_max s = Ok hi →
  lo ∈ s_values s ∧ hi ∈ s_values s ∧
  (∀ v, v ∈ s_values s → py_lt v lo = false ∧ py_gt v hi = false) ∧
  PrimFloat.is_nan lo = PrimFloat.is_nan hi ∧
  (PrimFloat.is_nan lo = false →
   ∀ v, v ∈ s_values s → PrimFloat.is_nan v = false →
        py_lt lo v || py_eq lo v = true ∧ py_gt hi v || py_eq hi v = true).
Proof.
  intros Hlo Hhi.
  destruct (min_max_inv _ _ _ _ Hlo) as (x & l & Hs & _).
  destruct (py_min_head s x l Hs) as (lo' & Hlo' & Hin & Hnan & _).
  destruct (py_max_head s x l Hs) as (hi' & Hhi' & Hin' & Hnan' & _).
  rewrite Hlo in Hlo'. rewrite Hhi in Hhi'.
  injection Hlo' as <-. injection Hhi' as <-.
  split; [done|]. split; [done|].
  split; [by split; [eapply py_min_bound|eapply py_max_bound]|].
  split; [congruence|]. intros Hx v Hv Hv'.
  split; apply orb_true_iff.
  - destruct (py_trichotomy lo v) as [H|[H|H]]; [done|done|by left|by right|].
    by rewrite (py_min_bound s lo v) in H.
  - destruct (py_trichotomy hi v) as [H|[H|H]]; [congruence|done| |by right|by left].
    pose proof (py_max_bound s hi v Hhi Hv) as Hb.
    change (py_lt hi v = false) in Hb. congruence.
Qed.

Lemma min_max_bound_every_value_witness :
  py_lt (-1)%float 2.5%float || py_eq (-1)%float 2.5%float = true.
Proof.
  destruct (min_max_bound_every_value demo_series (-1)%float 2.5%float eq_refl eq_refl)
    as (_ & _ & _ & _ & H).
  refine (proj1 (H eq_refl 2.5%float _ eq_refl)).
  apply list_elem_of_here.
Defined.

(** X2.  In a non-empty Series the first value decides what [hmin] and
    [hmax] colour.  [min] and [max] return NaN exactly when the first
    value is NaN; they then return that first value, and [hmin] and
    [hmax] return only empty strings.  When the first value is a number,
    [hmin] colours a cell red and [hmax] colours a cell lime, even if
    later values are NaN. *)
Theorem first_value_decides_whether_a_cell_is_colored
    (s : Series) (x : float) (l : list float) :
  s_values s = x :: l →
  ∃ lo hi lmin lmax,
    py_min s = Ok lo ∧ py_max s = Ok hi ∧ hmin s = Ok lmin ∧ hmax s = Ok lmax ∧
    PrimFloat.is_nan lo = PrimFloat.is_nan x ∧
    PrimFloat.is_nan hi = PrimFloat.is_nan x ∧
    (PrimFloat.is_nan x = true →
     lo = x ∧ hi = x ∧ Forall (fun c => c = "") (lmin ++ lmax)) ∧
    (PrimFloat.is_nan x = false →
     background "red" ∈ lmin ∧ background "lime" ∈ lmax).
Proof.
  intros Hs.
  destruct (py_min_head s x l Hs) as (lo & Hlo & Hin & Hnan & Hhead).
  destruct (py_max_head s x l Hs) as (hi & Hhi & Hin' & Hnan' & Hhead').
  exists lo, hi. unfold hmin, hmax.
  destruct (PrimFloat.is_nan x) eqn:Hx.
  - destruct (highlight_nan s py_min "red" lo Hlo Hnan) as (lmin & Hmin & Hall).
    destruct (highlight_nan s py_max "lime" hi Hhi Hnan') as (lmax & Hmax & Hall').
    exists lmin, lmax. do 6 (split; [done|]).
    split; [|done]. intros _. split; [by apply Hhead|]. split; [by apply Hhead'|].
    by apply Forall_app_2.
  - destruct (highlight_number s py_min "red" lo Hlo Hin Hnan) as (lmin & Hmin & Hred).
    destruct (highlight_number s py_max "lime" hi Hhi Hin' Hnan') as (lmax & Hmax & Hlime).
    exists lmin, lmax. do 6 (split; [done|]). by split.
Qed.

Lemma first_value_decides_whether_a_cell_is_colored_witness :
  ∃ lmin lmax, hmin nan_series = Ok lmin ∧ hmax nan_series = Ok lmax ∧
               Forall (fun c => c = "") (lmin ++ lmax).
Proof.
  destruct (first_value_decides_whether_a_cell_is_colored nan_series
              PrimFloat.nan [1%float; 2%float] eq_refl)
    as (lo & hi & lmin & lmax & _ & _ & Hmin & Hmax & _ & _ & Hnan & _).
  exists lmin, lmax. split; [exact Hmin|]. split; [exact Hmax|].
  apply Hnan. reflexivity.
Defined.

(** X3.  If one cell of a Series is coloured by [hmin] and by [hmax],
    then every cell that holds a number is coloured by both: apart from
    NaN, all values of the Series are equal. *)
Theorem cell_with_both_colors_means_equal_values
    (s : Series) (lmin lmax : list string) (i : nat) :
  hmin s = Ok lmin → hmax s = Ok lmax →
  lmin !! i = Some (background "red") → lmax !! i = Some (background "lime") →
  ∀ j v, s_values s !! j = Some v → PrimFloat.is_nan v = false →
    lmin !! j = Some (background "red") ∧ lmax !! j = Some (background "lime").
Proof.
  unfold hmin, hmax. intros Hmin Hmax Hred Hlime j v Hv Hnan.
  destruct (highlight_inv _ _ _ _ Hmin) as (lo & Hlo & _).
  destruct (highlight_inv _ _ _ _ Hmax) as (hi & Hhi & _).
  apply (highlight_lookup _ _ _ _ _ _ Hlo Hmin) in Hred as (u & Hu & Hulo).
  apply (highlight_lookup _ _ _ _ _ _ Hhi Hmax) in Hlime as (u' & Hu' & Huhi).
  rewrite Hu in Hu'. injection Hu' as <-.
  assert (Hlohi : py_eq lo hi = true) by (eapply py_eq_trans; [by apply py_eq_sym|done]).
  assert (Hin : v ∈ s_values s) by (apply list_elem_of_lookup; eauto).
  assert (Hvlo : py_eq v lo = true).
  { destruct (py_eq_not_nan _ _ Hlohi) as [Hlo' _].
    destruct (py_trichotomy v lo Hnan Hlo') as [H|[H|H]]; [|done|].
    - by rewrite (py_min_bound s lo v) in H.
    - rewrite (py_eq_lt_l lo hi v Hlohi) in H.
      pose proof (py_max_bound s hi v Hhi Hin) as Hb.
      change (py_lt hi v = false) in Hb. congruence. }
  split.
  - apply (highlight_lookup _ _ _ _ _ _ Hlo Hmin). eauto.
  - apply (highlight_lookup _ _ _ _ _ _ Hhi Hmax). exists v. split; [done|].
    by eapply py_eq_trans.
Qed.

Lemma cell_with_both_colors_means_equal_values_witness :
  ∃ lmin lmax : list string,
    hmin flat_series = Ok lmin ∧ hmax flat_series = Ok lmax ∧
    lmin !! 2 = Some (background "red") ∧ lmax !! 2 = Some (background "lime").
Proof.
  eexists _, _. split; [reflexivity|]. split; [reflexivity|].
  apply (cell_with_both_colors_means_equal_values flat_series _ _ 0 eq_refl eq_refl
           eq_refl eq_refl 2 2%float eq_refl eq_refl).
Defined.

(** ** The callbacks *)

Lemma positions_from_member n key labels :
  key ∈ labels → positions_from n key labels ≠ [].
Proof.
  revert n. induction labels as [|l labels IH]; intros n Hin; simpl.
  - by apply elem_of_nil in Hin.
  - destruct (String.eqb_spec l key) as [->|Hne]; [done|].
    apply elem_of_cons in Hin as [->|Hin]; [done|]. by apply IH.
Qed.


Lemma getitem_member d c :
  c ∈ columns d → ∃ v, getitem d c = Ok v ∧ is_tsexplorer v = false.
Proof.
  intros Hc. pose proof (positions_from_member 0 c (columns d) Hc) as Hne.
  unfold getitem, positions. destruct (positions_from 0 c (columns d)) as [|j [|j' js]];
    [done|eauto..].
Qed.

Lemma getitem_list_member d c :
  c ∈ columns d →
  ∃ js, js ≠ [] ∧ getitem_list d [c] = Ok (take_columns d js) ∧ js = positions c d.
Proof.
  intros Hc. pose proof (positions_from_member 0 c (columns d) Hc) as Hne.
  unfold getitem_list, positions. simpl.
  destruct (positions_from 0 c (columns d)) as [|j js] eqn:Hp; [done|].
  simpl. rewrite app_nil_r. eauto.
Qed.










(** ** The cells *)

Lemma wp_random_choice_elem {A} w (seq : list A) (Q : A → Kernel → Prop)
    (E : Exn → Kernel → Prop) k :
  seq ≠ [] →
  (∀ j c, seq !! j = Some c → Q c (set_py_random (S (py_random k)) k)) →
  wp (random_choice w seq) Q E k.
Proof.
  intros Hne HQ. destruct (random_choice_member w seq k Hne) as (j & c & Hj & Hrun).
  unfold wp. rewrite Hrun. eauto.
Qed.

Lemma wp_random_choice_empty {A} w (Q : A → Kernel → Prop) (E : Exn → Kernel → Prop) k :
  E (IndexError "Cannot choose from an empty sequence") k →
  wp (random_choice w []) Q E k.
Proof. done. Qed.

Lemma wp_run_raise {A} (m : M A) e0 k0 k :
  wp m (fun _ _ => False) (fun e k' => e = e0 ∧ k' = k0) k → m k = (k0, Raise e0).
Proof. unfold wp. destruct (m k) as [k' [a|e]]; [done|]. by intros [-> ->]. Qed.

Ltac wp_choice_step d :=
  apply wp_random_choice_elem; [done|];
  let j := fresh "j" in
  let c := fresh "c" in
  let Hj := fresh "Hj" in
  let Hin := fresh "Hin" in
  intros j c Hj;
  assert (Hin : c ∈ columns d) by (apply list_elem_of_lookup; eauto);
  let v := fresh "v" in
  let Hget := fresh "Hget" in
  let js := fresh "js" in
  let Hsub := fresh "Hsub" in
  destruct (getitem_member d c Hin) as (v & Hget & _);
  destruct (getitem_list_member d c Hin) as (js & _ & Hsub & _).

(** X7.  When no library call fails and [data] is bound, the bokeh
    cell and the bqplot cell raise exactly when [data] has no column:
    [random.choice] raises IndexError, in the bokeh cell after
    [output_notebook] was called.  With at least one column both cells
    return and bind [col] to a label of [data.columns], and the bqplot
    cell binds [source] to [data[col]]; this holds also when labels
    repeat. *)
Theorem random_column_cells_fail_only_without_columns
    (w : World) (k : Kernel) (d : DataFrame) :
  (∀ c, faults w c = None) → data k = Some d →
  (columns d = [] →
   bqplot_cell w k = (k, Raise (IndexError "Cannot choose from an empty sequence")) ∧
   bokeh_cell w k = (log_call (CallFn Bokeh "output_notebook" [] []) k,
                     Raise (IndexError "Cannot choose from an empty sequence"))) ∧
  (columns d ≠ [] →
   snd (bqplot_cell w k) = Ok tt ∧ snd (bokeh_cell w k) = Ok tt ∧
   (∃ c v, c ∈ columns d ∧ col (fst (bqplot_cell w k)) = Some c ∧
           getitem d c = Ok v ∧ source (fst (bqplot_cell w k)) = Some v) ∧
   (∃ c, c ∈ columns d ∧ col (fst (bokeh_cell w k)) = Some c)).
Proof.
  intros Hnf Hd. split.
  - intros Hc. split; apply wp_run_raise.
    + unfold bqplot_cell. by repeat first [wp_step | rewrite Hc; apply wp_random_choice_empty].
    + unfold bokeh_cell. by repeat first [wp_step | rewrite Hc; apply wp_random_choice_empty].
  - intros Hc.
    assert (Hbq : wp (bqplot_cell w)
              (fun _ k' => ∃ c v, c ∈ columns d ∧ col k' = Some c ∧
                                  getitem d c = Ok v ∧ source k' = Some v)
              (fun _ _ => False) k).
    { unfold bqplot_cell. repeat first [wp_step | wp_choice_step d].
      eexists _, _. eauto. }
    assert (Hbk : wp (bokeh_cell w)
              (fun _ k' => ∃ c, c ∈ columns d ∧ col k' = Some c)
              (fun _ _ => False) k).
    { unfold bokeh_cell. repeat first [wp_step | wp_choice_step d].
      eexists. eauto. }
    apply wp_run_ok in Hbq as ([] & Hbq1 & Hbq2).
    apply wp_run_ok in Hbk as ([] & Hbk1 & Hbk2).
    done.
Qed.

Lemma random_column_cells_fail_only_without_columns_witness :
  bqplot_cell demo_world (set_data (mkDataFrame [] [] []) fresh_kernel)
  = (set_data (mkDataFrame [] [] []) fresh_kernel,
     Raise (IndexError "Cannot choose from an empty sequence")).
Proof.
  exact (proj1 (proj1 (random_column_cells_fail_only_without_columns demo_world
                         (set_data (mkDataFrame [] [] []) fresh_kernel)
                         (mkDataFrame [] [] []) (fun _ => eq_refl) eq_refl)
                  eq_refl)).
Defined.







Lemma marks_nan v lo hi :
  PrimFloat.is_nan lo = true → PrimFloat.is_nan hi = true → marks v lo hi = [].
Proof.
  intros Hlo Hhi. unfold marks.
  destruct (py_eq v lo) eqn:H1; [apply py_eq_not_nan in H1 as [_ H1]; congruence|].
  destruct (py_eq v hi) eqn:H2; [apply py_eq_not_nan in H2 as [_ H2]; congruence|].
  done.
Qed.

(** X10.  In a kernel where [data] is a well-formed frame, the styles
    cell makes one library call, [display] of a Styler over [data] whose
    rendering succeeded, and changes nothing else.  In the rendered
    table a column whose first value is NaN has no declaration on any
    cell, and a column whose first value is a number has a cell with the
    red declaration and a cell with the lime one. *)
Theorem styles_cell_marks_columns_that_start_with_a_number
    (w : World) (k : Kernel) (d : DataFrame) :
  data k = Some d → well_formed d = true →
  ∃ css,
    styler_compute (styler_apply hmax (styler_apply hmin (style d))) = Ok css ∧
    (let shown := CallFn IPython "display" [VStyler d (Ok css)] [] in
     styles_cell w k
     = (log_call shown k,
        match faults w shown with Some e => Raise e | None => Ok tt end)) ∧
    ∀ j x rest, df_values d !! j = Some (x :: rest) →
      (PrimFloat.is_nan x = true →
       ∀ i, i < nrows d → css !! j ≫= (.!! i) = Some []) ∧
      (PrimFloat.is_nan x = false →
       (∃ i cell, css !! j ≫= (.!! i) = Some cell ∧ background "red" ∈ cell) ∧
       (∃ i cell, css !! j ≫= (.!! i) = Some cell ∧ background "lime" ∈ cell)).
Proof.
  intros Hd Hwf. destruct (styled_table d Hwf) as (css & Hcss & Hcell).
  exists css. split; [done|]. split.
  { cbv zeta. unfold styles_cell. run_monad. rewrite Hd. cbn. rewrite Hcss.
    by destruct (faults w _). }
  intros j x rest Hj.
  assert (Hs : s_values (column_series d j) = x :: rest) by (simpl; by rewrite Hj).
  destruct (py_min_head _ _ _ Hs) as (lo & Hlo & Hlo_in & Hlo_nan & _).
  destruct (py_max_head _ _ _ Hs) as (hi & Hhi & Hhi_in & Hhi_nan & _).
  assert (Hmarks : ∀ i v, (x :: rest) !! i = Some v →
            css !! j ≫= (.!! i) = Some (marks v lo hi)).
  { intros i v Hv. destruct (Hcell j i _ v Hj Hv) as (lo' & hi' & Hlo' & Hhi' & Hm).
    congruence. }
  split.
  - intros Hx i Hi. destruct (well_formed_inv d Hwf) as [_ Hlen].
    rewrite <- (Hlen j _ Hj) in Hi.
    destruct (lookup_lt_is_Some_2 _ _ Hi) as [v Hv].
    rewrite (Hmarks i v Hv). f_equal. apply marks_nan; congruence.
  - intros Hx. rewrite Hs in Hlo_in, Hhi_in.
    apply list_elem_of_lookup in Hlo_in as [i Hi].
    apply list_elem_of_lookup in Hhi_in as [i' Hi']. split.
    + exists i, (marks lo lo hi). split; [by apply Hmarks|].
      unfold marks. rewrite py_eq_refl by congruence.
      apply elem_of_app. left. apply list_elem_of_here.
    + exists i', (marks hi lo hi). split; [by apply Hmarks|].
      unfold marks. rewrite (py_eq_refl hi) by congruence.
      apply elem_of_app. right. apply list_elem_of_here.
Qed.

Lemma styles_cell_marks_columns_that_start_with_a_number_witness :
  ∃ css,
    styler_compute (styler_apply hmax (styler_apply hmin (style demo_frame))) = Ok css ∧
    snd (styles_cell demo_world demo_kernel) = Ok tt.
Proof.
  destruct (styles_cell_marks_columns_that_start_with_a_number demo_world demo_kernel
              demo_frame) as (css & Hcss & Hrun & _).
  - vm_compute. reflexivity.
  - vm_compute. reflexivity.
  - exists css. split; [exact Hcss|]. cbv zeta in Hrun. rewrite Hrun. reflexivity.
Defined.








(** X12.  The setup cell prints the shape (12, 6).  When that call
    returns, the cell returns and shows one value, the frame
    [data.head(6)]: the rows of January to June 2000, the columns of
    [data], and of each column its first six values.  When the call
    raises, the cell raises the same exception and shows nothing;
    [data] is bound all the same. *)
Theorem setup_cell_shows_the_first_six_rows (w : World) (k : Kernel) :
  let shape_printed :=
    CallFn Builtins "print" [VStr "rows, cols:"; VTuple [VInt 12; VInt 6]] [] in
  let k' := fst (setup_cell w k) in
  (faults w shape_printed = None →
   snd (setup_cell w k) = Ok tt ∧
   ∃ d h, data k' = Some d ∧ displayed k' = displayed k ++ [VFrame h] ∧
          index h = map (fun m => mkTimestamp 2000 m 1) [1; 2; 3; 4; 5; 6] ∧
          index h `prefix_of` index d ∧
          columns h = columns d ∧
          length (df_values h) = length (df_values d) ∧
          ∀ j c, df_values d !! j = Some c →
                 df_values h !! j = Some (take 6 c) ∧ length (take 6 c) = 6) ∧
  (∀ e, faults w shape_printed = Some e →
        snd (setup_cell w k) = Raise e ∧ displayed k' = displayed k ∧
        is_Some (data k') ∧ calls k' = calls k ++ [shape_printed]).
Proof.
  intros shape_printed k'.
  destruct (setup_cell_run w k) as (d & t & Hi & Hc & Hlen & Hcols & Hrun).
  cbv zeta in Hrun.
  assert (Hshape : shape d = VTuple [VInt 12; VInt 6]).
  { unfold shape, nrows, ncols. by rewrite Hi, Hc. }
  rewrite Hshape in Hrun. fold shape_printed in Hrun. subst k'. rewrite Hrun.
  split.
  - intros ->. split; [done|]. exists d, (df_head 6 d). simpl.
    split; [done|]. split; [done|]. unfold df_head. simpl.
    split; [by rewrite Hi|]. split; [apply prefix_take|]. split; [done|].
    split; [by rewrite length_map|]. intros j c Hj.
    rewrite map_fmap, list_lookup_fmap, Hj. split; [done|].
    rewrite length_take. rewrite Forall_forall in Hcols.
    rewrite (Hcols c) by (apply list_elem_of_lookup; eauto). done.
  - intros e ->. simpl. by repeat split.
Qed.
